(** * EV Charging Optimizer: the station optimization engine of [main.py]

    A shallow embedding of [optimize_route] and of the helpers it calls
    ([geocode_address], [haversine_km], [list_stations]) together with the
    Python primitives it relies on ([sorted], [min], [round], float
    comparison and arithmetic).

    Python's [float] is IEEE 754 binary64; it is modelled by Rocq's
    primitive [float], which is the same format, so [/], [*], [<=] and [<]
    below are the very operations the interpreter performs. *)

From Stdlib Require Import ZArith List Bool Lia String Ascii Floats.
From Stdlib Require Import Sorting.Sorted Sorting.Permutation.
Import ListNotations.

Set Implicit Arguments.

(** Decimal literals stand for the nearest binary64 value, as in Python. *)
Set Warnings "-inexact-float".

(* ================================================================== *)
(** * Python floats: order facts *)
(* ================================================================== *)

Module PyFloat.

Local Open Scope float_scope.

(** [x <= y] and [x < y] of Python, as propositions. *)
Definition le (x y : float) : Prop := (x <=? y) = true.
Definition lt (x y : float) : Prop := (x <? y) = true.

(** A float that compares equal to itself is not a NaN. *)
Definition ordered (x : float) : Prop := (x <=? x) = true.

Ltac to_spec :=
  unfold le, lt, ordered in *;
  rewrite ?leb_spec, ?ltb_spec, ?eqb_spec in *;
  unfold SFleb, SFltb, SFeqb in *.

Ltac cmp_cases :=
  repeat match goal with
  | |- context [Z.compare ?a ?b] => destruct (Z.compare_spec a b)
  | H : context [Z.compare ?a ?b] |- _ => destruct (Z.compare_spec a b)
  | |- context [Pos.compare_cont Eq ?a ?b] =>
      change (Pos.compare_cont Eq a b) with (Pos.compare a b);
      destruct (Pos.compare_spec a b)
  | H : context [Pos.compare_cont Eq ?a ?b] |- _ =>
      change (Pos.compare_cont Eq a b) with (Pos.compare a b) in H;
      destruct (Pos.compare_spec a b)
  end.

Ltac sf_crush :=
  simpl in *; try congruence; try reflexivity;
  cmp_cases; simpl in *; subst; try congruence; try reflexivity; try lia.

(** The comparison of the specification floats is a total preorder once
    NaN is set aside; the facts below are what the selection code
    needs of it. *)

Lemma SFcompare_antisym (a b : spec_float) :
  SFcompare b a = option_map CompOpp (SFcompare a b).
Proof.
  destruct a as [[]|[]| |[] ma ea], b as [[]|[]| |[] mb eb]; simpl; try reflexivity;
    rewrite (Z.compare_antisym ea eb);
    change (Pos.compare_cont Eq mb ma) with (Pos.compare mb ma);
    change (Pos.compare_cont Eq ma mb) with (Pos.compare ma mb);
    rewrite (Pos.compare_antisym ma mb);
    destruct (ea ?= eb)%Z; simpl; try reflexivity;
    destruct (ma ?= mb)%positive; reflexivity.
Qed.

Lemma SFleb_trans (a b c : spec_float) :
  SFleb a b = true -> SFleb b c = true -> SFleb a c = true.
Proof.
  unfold SFleb.
  destruct a as [[]|[]| |[] ma ea], b as [[]|[]| |[] mb eb], c as [[]|[]| |[] mc ec];
    simpl; intros Hab Hbc; try congruence; try reflexivity; sf_crush.
Qed.

Lemma le_trans (x y z : float) : le x y -> le y z -> le x z.
Proof. to_spec. apply SFleb_trans. Qed.

Lemma le_ordered_l (x y : float) : le x y -> ordered x.
Proof.
  to_spec. destruct (Prim2SF x) as [[]|[]| |[] ma ea], (Prim2SF y) as [[]|[]| |[] mb eb];
    simpl; intros H; try congruence; try reflexivity;
    rewrite ?Z.compare_refl; change (Pos.compare_cont Eq ma ma) with (Pos.compare ma ma);
    rewrite ?Pos.compare_refl; reflexivity.
Qed.

Lemma le_ordered_r (x y : float) : le x y -> ordered y.
Proof.
  to_spec. destruct (Prim2SF x) as [[]|[]| |[] ma ea], (Prim2SF y) as [[]|[]| |[] mb eb];
    simpl; intros H; try congruence; try reflexivity;
    rewrite ?Z.compare_refl; change (Pos.compare_cont Eq mb mb) with (Pos.compare mb mb);
    rewrite ?Pos.compare_refl; reflexivity.
Qed.

(** [x < y] excludes [y < x], and implies [x <= y]. *)
Lemma lt_le (x y : float) : lt x y -> le x y.
Proof. to_spec. destruct (SFcompare _ _) as [[]|]; congruence. Qed.

Lemma le_not_gt (x y : float) : le x y -> (y <? x) = false.
Proof.
  to_spec. rewrite (SFcompare_antisym (Prim2SF x) (Prim2SF y)).
  destruct (SFcompare _ _) as [[]|]; simpl; congruence.
Qed.

Lemma lt_asym (x y : float) : lt x y -> (y <? x) = false.
Proof. intros H. apply le_not_gt, lt_le, H. Qed.

(** Totality on ordered floats: when [y < x] is false, [x <= y]. *)
Lemma not_gt_le (x y : float) :
  ordered x -> ordered y -> (y <? x) = false -> le x y.
Proof.
  to_spec. rewrite (SFcompare_antisym (Prim2SF x) (Prim2SF y)).
  destruct (Prim2SF x) as [[]|[]| |[] ma ea], (Prim2SF y) as [[]|[]| |[] mb eb];
    simpl; try congruence;
    destruct (ea ?= eb)%Z; simpl; try congruence;
    destruct (Pos.compare_cont Eq ma mb); simpl; congruence.
Qed.


End PyFloat.

(* ================================================================== *)
(** * Python's [round(x, ndigits)] on floats *)
(* ================================================================== *)

(** CPython rounds a float to [ndigits] decimals in two correctly rounded
    steps: the exact binary value of [x] is rounded half-to-even to a
    decimal with [ndigits] places, and that decimal is converted back to
    the nearest binary64 value (ties to even).  Both steps are written
    here over [Z], counting in units of [2^-1074], the spacing of the
    smallest binary64 values, of which every finite float is an integer
    multiple. *)

Module PyRound.

Local Open Scope Z_scope.

(** [n / d] rounded to the nearest integer, ties to even ([0 <= n], [0 < d]). *)
Definition div_half_even (n d : Z) : Z :=
  let q := n / d in
  match 2 * (n mod d) ?= d with
  | Lt => q
  | Gt => q + 1
  | Eq => if Z.even q then q else q + 1
  end.

(** The magnitude of a float in units of [2^-1074]. *)
Definition ulps (x : spec_float) : Z :=
  match x with
  | S754_finite _ m e => Zpos m * 2 ^ (e + 1074)
  | _ => 0
  end.

(** The binary64 value nearest to [n / d] units: a significand [M] of at
    most 53 bits and a shift [j], standing for [M * 2^j] units. *)
Definition nearest_grid (n d : Z) : Z * Z :=
  let j := Z.max 0 (Z.log2 (n / d) - 52) in
  (div_half_even n (d * 2 ^ j), j).

Definition SF_of_grid (s : bool) (M j : Z) : spec_float :=
  if M =? 0 then S754_zero s
  else
    let '(m, e) := if M =? 2 ^ 53 then (2 ^ 52, j + 1 - 1074) else (M, j - 1074) in
    if e <=? 971 then S754_finite s (Z.to_pos m) e else S754_infinity s.

Definition round_spec (x : spec_float) (ndigits : nat) : spec_float :=
  match x with
  | S754_finite s _ _ =>
      let p := 10 ^ Z.of_nat ndigits in
      let k := div_half_even (ulps x * p) (2 ^ 1074) in
      let '(M, j) := nearest_grid (k * 2 ^ 1074) p in
      SF_of_grid s M j
  | _ => x
  end.

(** [round(x, ndigits)] for a float [x] and [0 <= ndigits]; NaN, the
    infinities and the zeros round to themselves. *)
Definition round (x : float) (ndigits : nat) : float :=
  match Prim2SF x with
  | S754_finite _ _ _ => SF2Prim (round_spec (Prim2SF x) ndigits)
  | _ => x
  end.

(** The values CPython prints for these calls. *)
Example round_2_675 : round 2.675 2 = 2.67%float.
Proof. vm_compute. reflexivity. Qed.

Example round_half_to_even : (round 0.125 2, round 0.375 2) = (0.12%float, 0.38%float).
Proof. vm_compute. reflexivity. Qed.

Example round_negative_zero : round (-0.001) 2 = (-0)%float.
Proof. vm_compute. reflexivity. Qed.

Example round_large : round 123456789012345.678 2 = 123456789012345.67%float.
Proof. vm_compute. reflexivity. Qed.

(** ** Rounding a quotient to the nearest integer is monotone *)

Lemma div_half_even_bounds (n d : Z) :
  0 < d -> n / d <= div_half_even n d <= n / d + 1.
Proof.
  intros Hd. unfold div_half_even.
  destruct (2 * (n mod d) ?= d); [destruct (Z.even (n / d))| |]; lia.
Qed.

Lemma div_half_even_mono (n1 n2 d : Z) :
  0 < d -> n1 <= n2 -> div_half_even n1 d <= div_half_even n2 d.
Proof.
  intros Hd Hn.
  pose proof (Z.div_le_mono n1 n2 d Hd Hn) as Hq.
  destruct (Z.eq_dec (n1 / d) (n2 / d)) as [E|NE].
  - pose proof (Z.div_mod n1 d ltac:(lia)) as E1.
    pose proof (Z.div_mod n2 d ltac:(lia)) as E2.
    assert (Hr : n1 mod d <= n2 mod d) by (rewrite E in E1; lia).
    unfold div_half_even. rewrite E.
    destruct (Z.compare_spec (2 * (n1 mod d)) d), (Z.compare_spec (2 * (n2 mod d)) d);
      destruct (Z.even (n2 / d)); lia.
  - pose proof (div_half_even_bounds n1 Hd). pose proof (div_half_even_bounds n2 Hd). lia.
Qed.

Lemma div_half_even_ge (n d c : Z) :
  0 < d -> c * d <= n -> c <= div_half_even n d.
Proof.
  intros Hd Hc. pose proof (div_half_even_bounds n Hd).
  assert (c <= n / d) by (apply Z.div_le_lower_bound; lia). lia.
Qed.

Lemma div_half_even_le (n d c : Z) :
  0 < d -> n <= c * d -> div_half_even n d <= c.
Proof.
  intros Hd Hc.
  pose proof (Z.div_mod n d ltac:(lia)) as E.
  pose proof (Z.mod_pos_bound n d Hd) as Hr.
  assert (Hq : n / d <= c) by (apply Z.div_le_upper_bound; lia).
  unfold div_half_even.
  destruct (Z.eq_dec (n / d) c) as [Ec|NE].
  - assert (n mod d = 0) by nia.
    destruct (Z.compare_spec (2 * (n mod d)) d); [lia | lia | lia].
  - destruct (2 * (n mod d) ?= d); [destruct (Z.even (n / d))| |]; lia.
Qed.

(** ** The nearest binary64 value is monotone *)

Lemma quotient_lt_pow2 (q : Z) : 0 <= q -> q < 2 ^ (Z.log2 q + 1).
Proof.
  intros Hq. destruct (Z.eq_dec q 0) as [->|NZ].
  - reflexivity.
  - pose proof (Z.log2_spec q ltac:(lia)). replace (Z.log2 q + 1) with (Z.succ (Z.log2 q)) by lia. lia.
Qed.

Lemma numerator_lt (n d b : Z) : 0 < d -> n / d < b -> n < d * b.
Proof.
  intros Hd Hq. pose proof (Z.div_mod n d ltac:(lia)). pose proof (Z.mod_pos_bound n d Hd). nia.
Qed.

Lemma nearest_grid_spec (n d : Z) :
  0 < d -> 0 <= n ->
  0 <= snd (nearest_grid n d) /\
  0 <= fst (nearest_grid n d) <= 2 ^ 53 /\
  (0 < snd (nearest_grid n d) -> 2 ^ 52 <= fst (nearest_grid n d)).
Proof.
  intros Hd Hn. unfold nearest_grid. cbn [fst snd].
  set (q := n / d). set (j := Z.max 0 (Z.log2 q - 52)).
  assert (Hq : 0 <= q) by (apply Z.div_pos; lia).
  assert (Hj : 0 <= j) by lia.
  assert (Hp : 0 < 2 ^ j) by (apply Z.pow_pos_nonneg; lia).
  split; [exact Hj|]. split; [split|].
  - apply div_half_even_ge; [apply Z.mul_pos_pos; assumption | lia].
  - apply div_half_even_le; [apply Z.mul_pos_pos; assumption|].
    pose proof (quotient_lt_pow2 Hq) as Hlt.
    assert (Hle : 2 ^ (Z.log2 q + 1) <= 2 ^ (53 + j)) by (apply Z.pow_le_mono_r; lia).
    rewrite (Z.pow_add_r 2 53 j) in Hle by lia.
    assert (Hnl : n < d * (2 ^ 53 * 2 ^ j)) by (apply numerator_lt; unfold q in *; lia).
    lia.
  - intros Hjpos. apply div_half_even_ge; [apply Z.mul_pos_pos; assumption|].
    assert (Hq0 : 0 < q).
    { destruct (Z.eq_dec q 0) as [E|]; [|lia].
      exfalso. subst j. rewrite E in Hjpos. simpl in Hjpos. lia. }
    pose proof (Z.log2_spec q Hq0) as [Hlo _].
    assert (Ej : Z.log2 q = 52 + j) by lia.
    rewrite Ej, (Z.pow_add_r 2 52 j) in Hlo by lia.
    pose proof (Z.mul_div_le n d Hd). fold q in H. nia.
Qed.

(** The value, in units, that [nearest_grid] stands for. *)
Definition grid_value (n d : Z) : Z :=
  fst (nearest_grid n d) * 2 ^ snd (nearest_grid n d).

Lemma nearest_grid_mono (n1 n2 d : Z) :
  0 < d -> 0 <= n1 -> n1 <= n2 -> grid_value n1 d <= grid_value n2 d.
Proof.
  intros Hd Hn1 Hn.
  pose proof (nearest_grid_spec Hd Hn1) as (Hj1 & [_ Hu1] & _).
  pose proof (@nearest_grid_spec n2 d Hd ltac:(lia)) as (Hj2 & [Hl2 _] & Hn2).
  unfold grid_value. revert Hj1 Hu1 Hj2 Hl2 Hn2. unfold nearest_grid. cbn [fst snd].
  assert (Hq : n1 / d <= n2 / d) by (apply Z.div_le_mono; lia).
  assert (Hq1 : 0 <= n1 / d) by (apply Z.div_pos; lia).
  pose proof (Z.log2_le_mono _ _ Hq) as Hlog.
  set (j1 := Z.max 0 (Z.log2 (n1 / d) - 52)). set (j2 := Z.max 0 (Z.log2 (n2 / d) - 52)).
  intros Hj1 Hu1 Hj2 Hl2 Hn2.
  assert (Hp1 : 0 < 2 ^ j1) by (apply Z.pow_pos_nonneg; lia).
  destruct (Z.eq_dec j1 j2) as [E|NE].
  - rewrite <- E. apply Z.mul_le_mono_nonneg_r; [lia|].
    apply div_half_even_mono; [apply Z.mul_pos_pos; assumption | lia].
  - assert (Hlt : j1 + 1 <= j2) by lia.
    specialize (Hn2 ltac:(lia)).
    assert (Hpw : 2 ^ (j1 + 1) <= 2 ^ j2) by (apply Z.pow_le_mono_r; lia).
    rewrite (Z.pow_add_r 2 j1 1) in Hpw by lia. change (2 ^ 1) with 2 in Hpw.
    change (2 ^ 53) with (2 * 2 ^ 52) in Hu1.
    assert (H52 : 0 < 2 ^ 52) by reflexivity.
    nia.
Qed.

(** ** Valid binary64 values and their order, in units *)

Lemma digits2_pos_bounds (m : positive) :
  2 ^ (Zpos (digits2_pos m) - 1) <= Zpos m < 2 ^ Zpos (digits2_pos m).
Proof.
  induction m as [m IH|m IH|]; cbn [digits2_pos].
  - rewrite Pos2Z.inj_succ. replace (Z.succ (Zpos (digits2_pos m)) - 1) with (Zpos (digits2_pos m)) by lia.
    rewrite Z.pow_succ_r by lia.
    replace (2 ^ Zpos (digits2_pos m)) with (2 * 2 ^ (Zpos (digits2_pos m) - 1)) in *
      by (rewrite <- Z.pow_succ_r by lia; f_equal; lia).
    lia.
  - rewrite Pos2Z.inj_succ. replace (Z.succ (Zpos (digits2_pos m)) - 1) with (Zpos (digits2_pos m)) by lia.
    rewrite Z.pow_succ_r by lia.
    replace (2 ^ Zpos (digits2_pos m)) with (2 * 2 ^ (Zpos (digits2_pos m) - 1)) in *
      by (rewrite <- Z.pow_succ_r by lia; f_equal; lia).
    lia.
  - split; reflexivity.
Qed.

(** A finite binary64 value has an exponent in [-1074, 971] and a
    significand below [2^53], of full width unless the exponent is the
    least one. *)
Definition in_format (m : positive) (e : Z) : Prop :=
  -1074 <= e <= 971 /\ Zpos m < 2 ^ 53 /\ (-1074 < e -> 2 ^ 52 <= Zpos m).

Lemma valid_in_format (s : bool) (m : positive) (e : Z) :
  valid_binary (S754_finite s m e) = true <-> in_format m e.
Proof.
  unfold in_format. cbn [SpecFloat.valid_binary]. unfold bounded, canonical_mantissa, fexp, SpecFloat.emin.
  change prec with 53. change emax with 1024.
  rewrite andb_true_iff, Z.eqb_eq, Z.leb_le.
  pose proof (digits2_pos_bounds m) as [Hlo Hhi].
  set (dg := Zpos (digits2_pos m)) in *.
  assert (Hdg : 0 < dg) by (unfold dg; lia).
  split.
  - intros [Hc He].
    assert (Hd53 : dg <= 53) by lia.
    assert (H53 : 2 ^ dg <= 2 ^ 53) by (apply Z.pow_le_mono_r; lia).
    repeat split; try lia.
    intros Hgt. assert (dg = 53) by lia. subst dg. rewrite H in Hlo. exact Hlo.
  - intros ([He1 He2] & Hm & Hn).
    assert (Hd53 : dg <= 53).
    { destruct (Z.le_gt_cases dg 53) as [|Hgt]; [assumption|].
      assert (2 ^ 53 <= 2 ^ (dg - 1)) by (apply Z.pow_le_mono_r; lia). lia. }
    split; [|lia].
    destruct (Z.eq_dec e (-1074)) as [->|NE]; [lia|].
    specialize (Hn ltac:(lia)).
    assert (52 < dg).
    { destruct (Z.le_gt_cases dg 52) as [Hle|]; [|lia].
      assert (2 ^ dg <= 2 ^ 52) by (apply Z.pow_le_mono_r; lia). lia. }
    lia.
Qed.

(** The infinity sits just above the largest finite value. *)
Definition top : Z := 2 ^ 2098.

(** The magnitude of a float in units, the infinities at [top]. *)
Definition rank (x : spec_float) : Z :=
  match x with
  | S754_infinity _ => top
  | _ => ulps x
  end.

Definition negative (x : spec_float) : bool :=
  match x with
  | S754_zero s | S754_infinity s | S754_finite s _ _ => s
  | S754_nan => false
  end.

(** The value of a float in units, with its sign. *)
Definition signed_rank (x : spec_float) : Z :=
  if negative x then - rank x else rank x.

Definition is_nan_sf (x : spec_float) : bool :=
  match x with
  | S754_nan => true
  | _ => false
  end.

Lemma pow2_pos (k : Z) : 0 <= k -> 0 < 2 ^ k.
Proof. intros. apply Z.pow_pos_nonneg; lia. Qed.

Lemma pow2_double (a b : Z) : 0 <= a -> a < b -> 2 * 2 ^ a <= 2 ^ b.
Proof.
  intros Ha Hab. rewrite <- Z.pow_succ_r by lia. apply Z.pow_le_mono_r; lia.
Qed.

Lemma top_split : top = 2 ^ 53 * 2 ^ 2045.
Proof. unfold top. rewrite <- Z.pow_add_r by lia. reflexivity. Qed.

Lemma finite_rank_bounds (m : positive) (e : Z) :
  in_format m e -> 0 < Zpos m * 2 ^ (e + 1074) < top.
Proof.
  intros ([He1 He2] & Hm & _). rewrite top_split.
  pose proof (pow2_pos (k := e + 1074) ltac:(lia)) as Hp.
  assert (Hle : 2 ^ (e + 1074) <= 2 ^ 2045) by (apply Z.pow_le_mono_r; lia).
  assert (H53 : 0 < 2 ^ 53) by reflexivity.
  split; [lia|]. nia.
Qed.

Lemma finite_rank_lt (m1 m2 : positive) (e1 e2 : Z) :
  in_format m1 e1 -> in_format m2 e2 -> e1 < e2 ->
  Zpos m1 * 2 ^ (e1 + 1074) < Zpos m2 * 2 ^ (e2 + 1074).
Proof.
  intros ([He1 _] & Hm1 & _) (_ & _ & Hn2) Hlt.
  specialize (Hn2 ltac:(lia)).
  pose proof (pow2_pos (k := e1 + 1074) ltac:(lia)) as Hp.
  pose proof (@pow2_double (e1 + 1074) (e2 + 1074) ltac:(lia) ltac:(lia)) as Hd.
  change (2 ^ 53) with (2 * 2 ^ 52) in Hm1.
  assert (H52 : 0 < 2 ^ 52) by reflexivity.
  nia.
Qed.

Lemma rank_nonneg (x : spec_float) : 0 <= rank x.
Proof.
  destruct x as [| | |s m e]; cbn [rank ulps]; [lia | unfold top; lia | lia |].
  apply Z.mul_nonneg_nonneg; [lia | apply Z.pow_nonneg; lia].
Qed.

(** On the binary64 values other than NaN, [<=] is the order of the
    signed values. *)
Lemma SFleb_signed_rank (a b : spec_float) :
  valid_binary a = true -> valid_binary b = true ->
  is_nan_sf a = false -> is_nan_sf b = false ->
  (SFleb a b = true <-> signed_rank a <= signed_rank b).
Proof.
  unfold SFleb, signed_rank.
  destruct a as [[]|[]| |[] ma ea], b as [[]|[]| |[] mb eb];
    cbn [is_nan_sf negative SFcompare rank ulps]; intros Va Vb Na Nb; try discriminate;
    try apply valid_in_format in Va; try apply valid_in_format in Vb;
    try (pose proof (finite_rank_bounds Va)); try (pose proof (finite_rank_bounds Vb));
    try (assert (0 < top) by reflexivity);
    try (split; [intros _; lia | reflexivity]);
    try (split; [discriminate | lia]);
    change (Pos.compare_cont Eq ma mb) with (Pos.compare ma mb);
    (destruct (Z.compare_spec ea eb) as [E|L|G];
     [ subst eb; pose proof (pow2_pos (k := ea + 1074) ltac:(destruct Va; lia));
       destruct (Pos.compare_spec ma mb); cbn [CompOpp];
       (split; [intros; try discriminate; nia | intros; try reflexivity; nia])
     | pose proof (finite_rank_lt Va Vb L);
       (split; [intros; try discriminate; lia | intros; try reflexivity; lia])
     | pose proof (finite_rank_lt Vb Va ltac:(lia));
       (split; [intros; try discriminate; lia | intros; try reflexivity; lia]) ]).
Qed.

(** ** The rounded value is a binary64 value, and rounding is monotone *)

Definition grid_ok (M j : Z) : Prop :=
  0 <= j /\ 0 <= M <= 2 ^ 53 /\ (0 < j -> 2 ^ 52 <= M).

Lemma SF_of_grid_valid (s : bool) (M j : Z) :
  grid_ok M j -> valid_binary (SF_of_grid s M j) = true.
Proof.
  intros (Hj & [HM0 HM1] & Hn). unfold SF_of_grid.
  destruct (Z.eqb_spec M 0) as [|NZ]; [reflexivity|].
  destruct (Z.eqb_spec M (2 ^ 53)) as [E|NE].
  - destruct (Z.leb_spec (j + 1 - 1074) 971); [|reflexivity].
    apply valid_in_format. unfold in_format.
    change (Zpos (Z.to_pos (2 ^ 52))) with (2 ^ 52).
    repeat split; try lia; reflexivity.
  - destruct (Z.leb_spec (j - 1074) 971); [|reflexivity].
    apply valid_in_format. unfold in_format. rewrite Z2Pos.id by lia.
    repeat split; try lia.
Qed.

Lemma SF_of_grid_negative (s : bool) (M j : Z) : negative (SF_of_grid s M j) = s.
Proof.
  unfold SF_of_grid. destruct (M =? 0); [reflexivity|].
  destruct (M =? 2 ^ 53); [destruct (j + 1 - 1074 <=? 971) | destruct (j - 1074 <=? 971)];
    reflexivity.
Qed.

Lemma SF_of_grid_not_nan (s : bool) (M j : Z) : is_nan_sf (SF_of_grid s M j) = false.
Proof.
  unfold SF_of_grid. destruct (M =? 0); [reflexivity|].
  destruct (M =? 2 ^ 53); [destruct (j + 1 - 1074 <=? 971) | destruct (j - 1074 <=? 971)];
    reflexivity.
Qed.

Lemma SF_of_grid_rank (s : bool) (M j : Z) :
  grid_ok M j -> rank (SF_of_grid s M j) = Z.min (M * 2 ^ j) top.
Proof.
  intros (Hj & [HM0 HM1] & Hn). unfold SF_of_grid.
  pose proof (pow2_pos Hj) as Hp.
  assert (H53 : 0 < 2 ^ 53) by reflexivity.
  assert (H52 : 2 ^ 53 = 2 * 2 ^ 52) by reflexivity.
  assert (H2045 : 0 < 2 ^ 2045) by reflexivity.
  pose proof top_split as Ht.
  destruct (Z.eqb_spec M 0) as [->|NZ].
  - cbn [rank ulps]. unfold top. lia.
  - destruct (Z.eqb_spec M (2 ^ 53)) as [E|NE].
    + destruct (Z.leb_spec (j + 1 - 1074) 971) as [Hle|Hgt]; cbn [rank ulps].
      * change (Zpos (Z.to_pos (2 ^ 52))) with (2 ^ 52).
        replace (j + 1 - 1074 + 1074) with (Z.succ j) by lia.
        rewrite Z.pow_succ_r by lia.
        assert (2 * 2 ^ j <= 2 ^ 2045) by (apply pow2_double; lia).
        rewrite Z.min_l by nia. nia.
      * assert (2 ^ 2045 <= 2 ^ j) by (apply Z.pow_le_mono_r; lia).
        rewrite Z.min_r by nia. reflexivity.
    + destruct (Z.leb_spec (j - 1074) 971) as [Hle|Hgt]; cbn [rank ulps].
      * rewrite Z2Pos.id by lia. replace (j - 1074 + 1074) with j by lia.
        assert (2 ^ j <= 2 ^ 2045) by (apply Z.pow_le_mono_r; lia).
        rewrite Z.min_l by nia. reflexivity.
      * specialize (Hn ltac:(lia)).
        assert (2 * 2 ^ 2045 <= 2 ^ j) by (apply pow2_double; lia).
        rewrite Z.min_r by nia. reflexivity.
Qed.

Lemma round_spec_grid_ok (k : Z) (ndigits : nat) :
  0 <= k ->
  grid_ok (fst (nearest_grid (k * 2 ^ 1074) (10 ^ Z.of_nat ndigits)))
          (snd (nearest_grid (k * 2 ^ 1074) (10 ^ Z.of_nat ndigits))).
Proof.
  intros Hk. apply nearest_grid_spec.
  - apply Z.pow_pos_nonneg; lia.
  - assert (0 < 2 ^ 1074) by reflexivity. nia.
Qed.

Lemma scaled_nonneg (x : spec_float) (ndigits : nat) :
  0 <= div_half_even (ulps x * 10 ^ Z.of_nat ndigits) (2 ^ 1074).
Proof.
  apply div_half_even_ge; [reflexivity|].
  assert (0 <= ulps x).
  { destruct x as [| | |s m e]; cbn [ulps]; [lia | lia | lia |].
    apply Z.mul_nonneg_nonneg; [lia | apply Z.pow_nonneg; lia]. }
  assert (0 < 10 ^ Z.of_nat ndigits) by (apply Z.pow_pos_nonneg; lia).
  nia.
Qed.

Lemma round_spec_valid (x : spec_float) (ndigits : nat) :
  valid_binary x = true -> valid_binary (round_spec x ndigits) = true.
Proof.
  intros V. destruct x as [| | |s m e]; try exact V.
  unfold round_spec.
  destruct (nearest_grid _ _) as [M j] eqn:E.
  pose proof (round_spec_grid_ok ndigits (scaled_nonneg (S754_finite s m e) ndigits)) as G.
  rewrite E in G. apply SF_of_grid_valid, G.
Qed.

(** Rounding keeps the sign, and makes no NaN. *)
Lemma round_spec_negative (x : spec_float) (ndigits : nat) :
  negative (round_spec x ndigits) = negative x.
Proof.
  destruct x as [| | |s m e]; try reflexivity.
  unfold round_spec. destruct (nearest_grid _ _) as [M j]. apply SF_of_grid_negative.
Qed.

Lemma round_spec_not_nan (x : spec_float) (ndigits : nat) :
  is_nan_sf x = false -> is_nan_sf (round_spec x ndigits) = false.
Proof.
  intros N. destruct x as [| | |s m e]; try exact N.
  unfold round_spec. destruct (nearest_grid _ _) as [M j]. apply SF_of_grid_not_nan.
Qed.

Lemma round_spec_rank_finite (s : bool) (m : positive) (e : Z) (ndigits : nat) :
  let x := S754_finite s m e in
  let p := 10 ^ Z.of_nat ndigits in
  rank (round_spec x ndigits)
  = Z.min (grid_value (div_half_even (ulps x * p) (2 ^ 1074) * 2 ^ 1074) p) top.
Proof.
  intros x p. unfold round_spec, grid_value. subst x. cbv zeta.
  pose proof (round_spec_grid_ok ndigits (scaled_nonneg (S754_finite s m e) ndigits)) as G.
  fold p in G |- *.
  destruct (nearest_grid _ _) as [M j] eqn:E. cbn [fst snd] in *.
  apply SF_of_grid_rank, G.
Qed.

(** Magnitudes: a larger magnitude rounds to a magnitude at least as large. *)
Lemma round_spec_rank_mono (a b : spec_float) (ndigits : nat) :
  valid_binary a = true -> valid_binary b = true ->
  is_nan_sf a = false -> is_nan_sf b = false ->
  rank a <= rank b -> rank (round_spec a ndigits) <= rank (round_spec b ndigits).
Proof.
  intros Va Vb Na Nb Hab.
  assert (Hp : 0 < 10 ^ Z.of_nat ndigits) by (apply Z.pow_pos_nonneg; lia).
  assert (Htop : 0 < top) by reflexivity.
  destruct a as [sa|sa| |sa ma ea]; try discriminate Na.
  - (* a is a zero *)
    change (rank (round_spec (S754_zero sa) ndigits)) with 0. apply rank_nonneg.
  - (* a is an infinity: so is b *)
    destruct b as [sb|sb| |sb mb eb]; try discriminate Nb.
    + cbn [rank ulps] in Hab. lia.
    + apply Z.le_refl.
    + apply valid_in_format in Vb. pose proof (finite_rank_bounds Vb).
      cbn [rank ulps] in Hab. lia.
  - (* a is finite *)
    destruct b as [sb|sb| |sb mb eb]; try discriminate Nb.
    + apply valid_in_format in Va. pose proof (finite_rank_bounds Va).
      cbn [rank ulps] in Hab. lia.
    + rewrite round_spec_rank_finite. cbn [round_spec rank]. cbv zeta. lia.
    + rewrite !round_spec_rank_finite. cbv zeta.
      apply Z.min_le_compat_r.
      cbn [rank] in Hab.
      apply nearest_grid_mono; [assumption| |].
      * pose proof (scaled_nonneg (S754_finite sa ma ea) ndigits).
        assert (0 < 2 ^ 1074) by reflexivity. nia.
      * apply Z.mul_le_mono_nonneg_r; [apply Z.pow_nonneg; lia|].
        apply div_half_even_mono; [reflexivity|].
        apply Z.mul_le_mono_nonneg_r; lia.
Qed.

Lemma round_spec_rank_zero (a : spec_float) (ndigits : nat) :
  valid_binary a = true -> rank a = 0 -> rank (round_spec a ndigits) = 0.
Proof.
  intros Va H0. destruct a as [sa|sa| |sa ma ea]; try reflexivity.
  - cbn [rank] in H0. assert (0 < top) by reflexivity. lia.
  - apply valid_in_format in Va. pose proof (finite_rank_bounds Va).
    cbn [rank ulps] in H0. lia.
Qed.

(** Signed values: rounding is monotone. *)
Lemma round_spec_mono (a b : spec_float) (ndigits : nat) :
  valid_binary a = true -> valid_binary b = true ->
  is_nan_sf a = false -> is_nan_sf b = false ->
  signed_rank a <= signed_rank b ->
  signed_rank (round_spec a ndigits) <= signed_rank (round_spec b ndigits).
Proof.
  intros Va Vb Na Nb. unfold signed_rank. rewrite !round_spec_negative.
  pose proof (rank_nonneg a). pose proof (rank_nonneg b).
  pose proof (rank_nonneg (round_spec a ndigits)).
  pose proof (rank_nonneg (round_spec b ndigits)).
  destruct (negative a), (negative b); intros Hab.
  - pose proof (@round_spec_rank_mono b a ndigits Vb Va Nb Na ltac:(lia)). lia.
  - lia.
  - rewrite (@round_spec_rank_zero a ndigits Va ltac:(lia)).
    rewrite (@round_spec_rank_zero b ndigits Vb ltac:(lia)). lia.
  - apply round_spec_rank_mono; assumption.
Qed.

(** ** The facts on primitive floats used by the optimizer *)

Lemma Prim2SF_round (x : float) (ndigits : nat) :
  Prim2SF (round x ndigits) = round_spec (Prim2SF x) ndigits.
Proof.
  unfold round. pose proof (Prim2SF_valid x) as V.
  destruct (Prim2SF x) as [| | |s m e] eqn:E; cbn [round_spec]; try exact E.
  apply Prim2SF_SF2Prim.
  change (valid_binary (round_spec (S754_finite s m e) ndigits) = true).
  apply round_spec_valid, V.
Qed.

Lemma ordered_not_nan (x : float) : PyFloat.ordered x -> is_nan_sf (Prim2SF x) = false.
Proof.
  unfold PyFloat.ordered. rewrite leb_spec. unfold SFleb.
  destruct (Prim2SF x) as [| | |s m e]; cbn; congruence.
Qed.

(** Python's [round] is monotone: [x <= y] implies
    [round(x, n) <= round(y, n)]. *)
Theorem round_mono (x y : float) (ndigits : nat) :
  PyFloat.le x y -> PyFloat.le (round x ndigits) (round y ndigits).
Proof.
  intros Hxy.
  pose proof (ordered_not_nan (PyFloat.le_ordered_l Hxy)) as Nx.
  pose proof (ordered_not_nan (PyFloat.le_ordered_r Hxy)) as Ny.
  unfold PyFloat.le in *. rewrite leb_spec in *. rewrite !Prim2SF_round.
  pose proof (Prim2SF_valid x) as Vx. pose proof (Prim2SF_valid y) as Vy.
  apply SFleb_signed_rank; auto using round_spec_valid, round_spec_not_nan.
  apply round_spec_mono; auto. apply SFleb_signed_rank; auto.
Qed.

End PyRound.

(* ================================================================== *)
(** * Python's [sorted(xs, key=...)] and [min(xs, key=...)] *)
(* ================================================================== *)

(** [sorted] is a stable sort that compares keys with [<] only, and
    [min] returns the first item no later item is [<] than.  On keys that
    [<] orders totally the result of a stable sort does not depend on the
    algorithm, so [sorted] is written as the stable insertion sort.  With
    a NaN among the keys the order CPython returns depends on its merge
    strategy; every statement below about the order of a sorted list
    therefore asks for keys that are not NaN, and the others use only
    that the result is a permutation of the input. *)

Module PySeq.

Section Keyed.

Variable A : Type.
Variable key : A -> float.

Fixpoint insert (x : A) (l : list A) : list A :=
  match l with
  | [] => [x]
  | y :: l' => if (key y <? key x)%float then y :: insert x l' else x :: l
  end.

Definition sorted (l : list A) : list A := fold_right insert [] l.

Definition min (l : list A) : option A :=
  match l with
  | [] => None
  | x :: l' =>
      Some (fold_left (fun best item => if (key item <? key best)%float then item else best) l' x)
  end.

(** Ascending by key. *)
Definition key_le (a b : A) : Prop := PyFloat.le (key a) (key b).

Definition ascending (l : list A) : Prop := StronglySorted key_le l.

End Keyed.

End PySeq.

(** ** What [sorted] and [min] guarantee *)

Lemma firstn_In (A : Type) (n : nat) (l : list A) (x : A) :
  In x (firstn n l) -> In x l.
Proof.
  revert l. induction n as [|n IH]; intros [|y l]; cbn [firstn]; try contradiction.
  intros [->|H]; [left; reflexivity | right; apply IH, H].
Qed.

Section KeyedFacts.

Variable A : Type.
Variable key : A -> float.

Local Abbreviation insert := (PySeq.insert key).
Local Abbreviation sorted := (PySeq.sorted key).
Local Abbreviation ascending := (PySeq.ascending key).
Local Abbreviation key_le := (PySeq.key_le key).

Definition keys_ordered (l : list A) : Prop :=
  Forall (fun x => PyFloat.ordered (key x)) l.

Lemma insert_perm (x : A) (l : list A) : Permutation (insert x l) (x :: l).
Proof.
  induction l as [|y l IH]; cbn [PySeq.insert].
  - apply Permutation_refl.
  - destruct (key y <? key x)%float.
    + eapply perm_trans; [apply perm_skip, IH | apply perm_swap].
    + apply Permutation_refl.
Qed.

Lemma sorted_perm (l : list A) : Permutation (sorted l) l.
Proof.
  induction l as [|x l IH]; cbn [PySeq.sorted fold_right].
  - apply perm_nil.
  - eapply perm_trans; [apply insert_perm | apply perm_skip, IH].
Qed.

Lemma sorted_length (l : list A) : List.length (sorted l) = List.length l.
Proof. apply Permutation_length, sorted_perm. Qed.

Lemma sorted_nil_inv (l : list A) : sorted l = [] -> l = [].
Proof.
  intros E. apply length_zero_iff_nil. rewrite <- sorted_length, E. reflexivity.
Qed.

Lemma sorted_Forall (P : A -> Prop) (l : list A) : Forall P l -> Forall P (sorted l).
Proof. intros H. eapply Permutation_Forall; [apply Permutation_sym, sorted_perm | exact H]. Qed.

Lemma insert_ascending (x : A) (l : list A) :
  PyFloat.ordered (key x) -> keys_ordered l -> ascending l -> ascending (insert x l).
Proof.
  intros Ox Ol Hs. induction Hs as [|y l Hs IH Hy]; cbn [PySeq.insert].
  - repeat constructor.
  - inversion Ol as [|? ? Oy Ol']; subst.
    destruct (key y <? key x)%float eqn:E.
    + constructor; [apply IH, Ol'|].
      eapply Permutation_Forall; [apply Permutation_sym, insert_perm|].
      constructor; [apply PyFloat.lt_le, E | exact Hy].
    + assert (Hxy : key_le x y) by (apply PyFloat.not_gt_le; assumption).
      constructor; [constructor; assumption|].
      constructor; [exact Hxy|].
      eapply Forall_impl; [|exact Hy]. intros z Hz. eapply PyFloat.le_trans; eassumption.
Qed.

(** On keys none of which is a NaN, [sorted] returns an ascending list. *)
Lemma sorted_ascending (l : list A) : keys_ordered l -> ascending (sorted l).
Proof.
  induction 1 as [|x l Ox Ol IH]; cbn [PySeq.sorted fold_right].
  - constructor.
  - apply insert_ascending; [exact Ox | apply sorted_Forall, Ol | exact IH].
Qed.



(** The head of [sorted l] is the first item of [l] with the least key:
    the items before it are strictly farther, the items after it are not
    nearer. *)
Lemma sorted_head_first_min (l : list A) (c0 : A) (rest : list A) :
  keys_ordered l -> sorted l = c0 :: rest ->
  exists l1 l2, l = l1 ++ c0 :: l2
    /\ Forall (fun x => PyFloat.lt (key c0) (key x)) l1
    /\ Forall (fun x => PyFloat.le (key c0) (key x)) l2.
Proof.
  intros Ol. revert c0 rest. induction Ol as [|x l Ox Ol IH]; intros c0 rest E.
  - discriminate.
  - cbn [PySeq.sorted fold_right] in E. fold (sorted l) in E.
    destruct (sorted l) as [|m r] eqn:Es.
    + apply sorted_nil_inv in Es. subst l. cbn in E. inversion E; subst.
      exists [], []. repeat split; constructor.
    + destruct (IH m r eq_refl) as (l1 & l2 & El & H1 & H2).
      assert (Om : PyFloat.ordered (key m)).
      { rewrite El in Ol. apply Forall_app in Ol as [_ Ol]. inversion Ol; assumption. }
      cbn [PySeq.insert] in E. destruct (key m <? key x)%float eqn:Elt.
      * inversion E; subst c0 rest.
        exists (x :: l1), l2. rewrite El. repeat split; [constructor | ]; assumption.
      * inversion E; subst c0 rest.
        assert (Hxm : PyFloat.le (key x) (key m)) by (apply PyFloat.not_gt_le; assumption).
        exists [], l. repeat split; [constructor|].
        rewrite El. apply Forall_app. split; [|constructor].
        -- eapply Forall_impl; [|exact H1]. intros z Hz.
           eapply PyFloat.le_trans; [exact Hxm | apply PyFloat.lt_le, Hz].
        -- exact Hxm.
        -- eapply Forall_impl; [|exact H2]. intros z Hz.
           eapply PyFloat.le_trans; eassumption.
Qed.

(** [min] of an ascending list is its first item. *)
Lemma min_fold_keeps (c : A) (l : list A) :
  Forall (key_le c) l ->
  fold_left (fun best item => if (key item <? key best)%float then item else best) l c = c.
Proof.
  induction 1 as [|y l Hy Hl IH]; cbn [fold_left]; [reflexivity|].
  rewrite (PyFloat.le_not_gt Hy). exact IH.
Qed.

Lemma min_ascending (c : A) (l : list A) :
  ascending (c :: l) -> PySeq.min key (c :: l) = Some c.
Proof.
  intros Hs. apply StronglySorted_inv in Hs as [_ Hc].
  cbn [PySeq.min]. f_equal. apply min_fold_keeps, Hc.
Qed.

(** [min] returns one of the items. *)
Lemma min_fold_In (c : A) (l : list A) :
  In (fold_left (fun best item => if (key item <? key best)%float then item else best) l c)
     (c :: l).
Proof.
  revert c. induction l as [|y l IH]; intros c; cbn [fold_left]; [left; reflexivity|].
  destruct (key y <? key c)%float.
  - right. apply IH.
  - destruct (IH c) as [H|H]; [left; exact H | right; right; exact H].
Qed.

Lemma min_In (l : list A) (b : A) : PySeq.min key l = Some b -> In b l.
Proof.
  destruct l as [|c l]; cbn [PySeq.min]; [discriminate|].
  intros E. inversion E. apply min_fold_In.
Qed.

Lemma min_nonempty (l : list A) : l <> [] -> exists b, PySeq.min key l = Some b.
Proof. destruct l as [|c l]; [congruence|]. intros _. eexists. reflexivity. Qed.

Lemma firstn_ascending (n : nat) (l : list A) : ascending l -> ascending (firstn n l).
Proof.
  intros Hs. revert n. induction Hs as [|x l Hs IH Hx]; intros [|n]; cbn [firstn];
    try constructor.
  - apply IH.
  - rewrite Forall_forall in *. intros y Hy. apply Hx. eapply firstn_In, Hy.
Qed.

(** In an ascending list no item of a prefix is farther than an item of
    the rest. *)
Lemma ascending_app_le (l1 l2 : list A) :
  ascending (l1 ++ l2) -> forall a b, In a l1 -> In b l2 -> key_le a b.
Proof.
  induction l1 as [|x l1 IH]; cbn [app]; intros Hs a b Ha Hb; [contradiction|].
  apply StronglySorted_inv in Hs as [Hs Hx].
  destruct Ha as [->|Ha].
  - rewrite Forall_forall in Hx. apply Hx, in_or_app. right. exact Hb.
  - eapply IH; eassumption.
Qed.

(** The first [n] items of [sorted l] are [n] nearest items of [l]: what
    is left out is no nearer than anything kept. *)
Lemma firstn_sorted_nearest (n : nat) (l : list A) :
  keys_ordered l ->
  exists rest,
    Permutation l (firstn n (sorted l) ++ rest)
    /\ forall c x, In c (firstn n (sorted l)) -> In x rest -> key_le c x.
Proof.
  intros Ol. exists (skipn n (sorted l)). split.
  - rewrite firstn_skipn. apply Permutation_sym, sorted_perm.
  - apply ascending_app_le. rewrite firstn_skipn. apply sorted_ascending, Ol.
Qed.

End KeyedFacts.

Lemma StronglySorted_map (A B : Type) (R : A -> A -> Prop) (R' : B -> B -> Prop)
    (f : A -> B) (l : list A) :
  (forall a b, In a l -> In b l -> R a b -> R' (f a) (f b)) ->
  StronglySorted R l -> StronglySorted R' (map f l).
Proof.
  intros Hf Hs. induction Hs as [|x l Hs IH Hx]; cbn [map]; constructor.
  - apply IH. intros a b Ha Hb. apply Hf; right; assumption.
  - rewrite Forall_forall in *. intros y Hy. apply in_map_iff in Hy as (a & <- & Ha).
    apply Hf; [left; reflexivity | right; exact Ha | apply Hx, Ha].
Qed.

(* ================================================================== *)
(** * Models *)
(* ================================================================== *)

Module Station.
Record t := mk {
  id : option string;
  name : string;
  latitude : float;
  longitude : float;
  charger_type : string;
  power_kw : float;
  price_per_kwh : option float;
  availability : option string;
  city : option string
}.
End Station.

Module OptimizeRequest.
Record t := mk {
  origin : string;
  max_distance_km : float;
  preferred_charger : option string
}.
End OptimizeRequest.

(** The dictionary [{"lat": ..., "lon": ...}] of [geocode_address]. *)
Module Coords.
Record t := mk { lat : float; lon : float }.
End Coords.

(** The dictionary [{"station": s, "distance_km": d_km}] of the candidate list. *)
Module Candidate.
Record t := mk { station : Station.t; distance_km : float }.
End Candidate.

(** The dictionary a candidate is summarised to in the response. *)
Module CandidateSummary.
Record t := mk {
  name : string;
  latitude : float;
  longitude : float;
  distance_km : float;
  charger_type : string;
  power_kw : float
}.
End CandidateSummary.

Module OptimizeResponse.
Record t := mk {
  origin : Coords.t;
  best_station : Station.t;
  distance_km : float;
  eta_minutes : float;
  route_polyline : list (list float);
  candidates : list CandidateSummary.t
}.
End OptimizeResponse.

(** The graph of [networkx] the handler fills in: named nodes with their
    coordinates and weighted edges. *)
Module Graph.
Record t := mk {
  nodes : list (string * Coords.t);
  edges : list (string * string * float)
}.
Definition empty : t := mk [] [].
Definition add_node (g : t) (n : string) (c : Coords.t) : t :=
  mk (filter (fun p => negb (String.eqb (fst p) n)) (nodes g) ++ [(n, c)]) (edges g).
Definition add_edge (g : t) (u v : string) (weight : float) : t :=
  mk (nodes g)
     (filter (fun e => negb (String.eqb (fst (fst e)) u && String.eqb (snd (fst e)) v)) (edges g)
      ++ [(u, v, weight)]).
End Graph.

(* ================================================================== *)
(** * Effects: exceptions and the calls to the collaborators *)
(* ================================================================== *)

Inductive exn : Type :=
| HTTPException (status_code : Z) (detail : string)
| ValueError (msg : string).

Inductive result (A : Type) : Type :=
| Ok (a : A)
| Raise (e : exn).
Arguments Ok {A} a.
Arguments Raise {A} e.

(** What a run asks of the world, in order: the geocoder, the station
    listing, the distance computation. *)
Inductive call : Type :=
| CallGeocode (query : string)
| CallListStations
| CallGeodesic (a b : Coords.t).

(** A computation threads the log of calls and may raise. *)
Definition M (A : Type) : Type := list call -> result A * list call.

Definition ret {A} (a : A) : M A := fun log => (Ok a, log).
Definition raise {A} (e : exn) : M A := fun log => (Raise e, log).
Definition bind {A B} (m : M A) (k : A -> M B) : M B :=
  fun log => match m log with
             | (Ok a, log') => k a log'
             | (Raise e, log') => (Raise e, log')
             end.
Definition emit (c : call) : M unit := fun log => (Ok tt, log ++ [c]).

Declare Scope py_scope.
Delimit Scope py_scope with py.
Notation "x <- m ;; k" := (bind m (fun x => k))
  (at level 61, m at next level, right associativity) : py_scope.
Notation "m ;; k" := (bind m (fun _ => k))
  (at level 61, right associativity) : py_scope.

(** Python's truth value of an [Optional[str]]: [None] and [""] are false. *)
Definition truthy (o : option string) : bool :=
  match o with
  | Some s => negb (String.eqb s EmptyString)
  | None => false
  end.

(** What [geolocator.geocode] can do: find a location, find none, or fail. *)
Inductive geocoder_reply : Type :=
| Located (latitude longitude : float)
| NoLocation
| GeocoderError.

(* ================================================================== *)
(** * The handlers of [main.py] *)
(* ================================================================== *)

Local Open Scope string_scope.
Local Open Scope list_scope.
Local Open Scope py_scope.

(** The in-memory station [list_stations] answers with when there is no
    database. *)
Definition sample_station : Station.t :=
  Station.mk None "Sample Station" 37.7749%float (-122.4194)%float "CCS" 100%float
             None (Some "unknown") None.

Section Handlers.

(** The world outside [main.py]: the geocoder of [geopy], the station
    documents of the database ([None] when no database is configured,
    as [db is None] tests; otherwise what [get_documents("station", q,
    limit=200)] returns for the city and charger filters, each document
    already a valid [Station]), geopy's [geodesic(...).km], and
    [str.lower].  The geodesic is a total function here: geopy refuses
    coordinates outside their ranges, and stations and origins are taken
    to carry valid ones, as the data model says. *)
Variable geolocator_geocode : string -> geocoder_reply.
Variable db : option (option string -> option string -> list Station.t).
Variable geodesic_km : Coords.t -> Coords.t -> float.
Variable str_lower : string -> string.

(** [geocode_address]: a location found becomes coordinates; no match
    and an exception of the geocoder both become [None]. *)
Definition geocode_address (query : string) : M (option Coords.t) :=
  emit (CallGeocode query) ;;
  match geolocator_geocode query with
  | Located la lo => ret (Some (Coords.mk la lo))
  | NoLocation => ret None
  | GeocoderError => ret None
  end.

Definition haversine_km (a b : Coords.t) : M float :=
  emit (CallGeodesic a b) ;;
  ret (geodesic_km (Coords.mk (Coords.lat a) (Coords.lon a))
                   (Coords.mk (Coords.lat b) (Coords.lon b))).

(** [list_stations(city, charger)]: the sample station without a
    database, else the documents that match the filters that are set. *)
Definition list_stations (city charger : option string) : M (list Station.t) :=
  emit CallListStations ;;
  match db with
  | None => ret [sample_station]
  | Some get_documents =>
      ret (get_documents (if truthy city then city else None)
                         (if truthy charger then charger else None))
  end.

Definition station_coords (s : Station.t) : Coords.t :=
  Coords.mk (Station.latitude s) (Station.longitude s).

(** The loop [for s in stations: d_km = ...; if d_km <= max: append]. *)
Fixpoint collect_within (origin_coords : Coords.t) (max_distance_km : float)
    (stations : list Station.t) (candidates : list Candidate.t) : M (list Candidate.t) :=
  match stations with
  | [] => ret candidates
  | s :: rest =>
      d_km <- haversine_km origin_coords (station_coords s) ;;
      collect_within origin_coords max_distance_km rest
        (if (d_km <=? max_distance_km)%float
         then candidates ++ [Candidate.mk s d_km]
         else candidates)
  end.

(** The comprehension [[{"station": s, "distance_km": ...} for s in stations]]. *)
Fixpoint with_distances (origin_coords : Coords.t) (stations : list Station.t)
    : M (list Candidate.t) :=
  match stations with
  | [] => ret []
  | s :: rest =>
      d_km <- haversine_km origin_coords (station_coords s) ;;
      tail <- with_distances origin_coords rest ;;
      ret (Candidate.mk s d_km :: tail)
  end.

Definition summarise (c : Candidate.t) : CandidateSummary.t :=
  let s := Candidate.station c in
  CandidateSummary.mk (Station.name s) (Station.latitude s) (Station.longitude s)
    (PyRound.round (Candidate.distance_km c) 2)
    (Station.charger_type s) (Station.power_kw s).

(** The star graph: the origin, one node and one edge per candidate. *)
Definition build_graph (origin_coords : Coords.t) (candidates : list Candidate.t) : Graph.t :=
  fold_left
    (fun G c =>
       let s := Candidate.station c in
       Graph.add_edge (Graph.add_node G (Station.name s) (station_coords s))
                      "origin" (Station.name s) (Candidate.distance_km c))
    candidates
    (Graph.add_node Graph.empty "origin" origin_coords).

Definition optimize_route (req : OptimizeRequest.t) : M OptimizeResponse.t :=
  origin_coords <- geocode_address (OptimizeRequest.origin req) ;;
  match origin_coords with
  | None => raise (HTTPException 404 "Origin not found")
  | Some origin_coords =>
      stations <- list_stations None None ;;
      let stations :=
        if truthy (OptimizeRequest.preferred_charger req) then
          match OptimizeRequest.preferred_charger req with
          | Some preferred =>
              filter (fun s => String.eqb (str_lower (Station.charger_type s))
                                          (str_lower preferred)) stations
          | None => stations
          end
        else stations in
      match stations with
      | [] => raise (HTTPException 404 "No stations available for the given filter")
      | _ :: _ =>
          candidates <- collect_within origin_coords
                          (OptimizeRequest.max_distance_km req) stations [] ;;
          candidates <-
            match candidates with
            | [] =>
                stations_with_dist <- with_distances origin_coords stations ;;
                ret (firstn 5 (PySeq.sorted Candidate.distance_km stations_with_dist))
            | _ :: _ =>
                ret (firstn 5 (PySeq.sorted Candidate.distance_km candidates))
            end ;;
          let G := build_graph origin_coords candidates in
          match PySeq.min Candidate.distance_km candidates with
          | None => raise (ValueError "min() arg is an empty sequence")
          | Some best =>
              let best_station := Candidate.station best in
              let route_polyline :=
                [ [Coords.lat origin_coords; Coords.lon origin_coords];
                  [Station.latitude best_station; Station.longitude best_station] ] in
              let eta_minutes := ((Candidate.distance_km best / 60) * 60)%float in
              ret (OptimizeResponse.mk
                     origin_coords
                     best_station
                     (PyRound.round (Candidate.distance_km best) 2)
                     (PyRound.round eta_minutes 1)
                     route_polyline
                     (map summarise candidates))
          end
      end
  end.


(* ================================================================== *)
(** * What a run of [optimize_route] computes *)
(* ================================================================== *)

(** The values the effectful code above returns, as functions of the
    world; the lemmas [*_run] tie each loop to its value and its calls. *)

(** The value of [geocode_address]. *)
Definition resolve (query : string) : option Coords.t :=
  match geolocator_geocode query with
  | Located la lo => Some (Coords.mk la lo)
  | NoLocation | GeocoderError => None
  end.

(** The value of [list_stations()]: the station snapshot. *)
Definition snapshot : list Station.t :=
  match db with
  | None => [sample_station]
  | Some get_documents => get_documents None None
  end.

Definition matches_charger (preferred : string) (s : Station.t) : bool :=
  String.eqb (str_lower (Station.charger_type s)) (str_lower preferred).

(** The stations left once the charger preference is applied. *)
Definition eligible (req : OptimizeRequest.t) : list Station.t :=
  if truthy (OptimizeRequest.preferred_charger req) then
    match OptimizeRequest.preferred_charger req with
    | Some preferred => filter (matches_charger preferred) snapshot
    | None => snapshot
    end
  else snapshot.

(** The distance [haversine_km] returns from the origin to a station. *)
Definition distance_to (origin_coords : Coords.t) (s : Station.t) : float :=
  geodesic_km (Coords.mk (Coords.lat origin_coords) (Coords.lon origin_coords))
              (Coords.mk (Station.latitude s) (Station.longitude s)).

Definition annotate (origin_coords : Coords.t) (stations : list Station.t)
    : list Candidate.t :=
  map (fun s => Candidate.mk s (distance_to origin_coords s)) stations.

Definition in_radius (max_distance_km : float) (c : Candidate.t) : bool :=
  (Candidate.distance_km c <=? max_distance_km)%float.

Definition within_radius (origin_coords : Coords.t) (max_distance_km : float)
    (stations : list Station.t) : list Candidate.t :=
  filter (in_radius max_distance_km) (annotate origin_coords stations).

(** The selection step (lines 219-233): the candidates the handler goes
    on with. *)
Definition select_candidates (origin_coords : Coords.t) (max_distance_km : float)
    (stations : list Station.t) : list Candidate.t :=
  match within_radius origin_coords max_distance_km stations with
  | [] => firstn 5 (PySeq.sorted Candidate.distance_km (annotate origin_coords stations))
  | _ :: _ =>
      firstn 5 (PySeq.sorted Candidate.distance_km
                  (within_radius origin_coords max_distance_km stations))
  end.

Definition respond (origin_coords : Coords.t) (candidates : list Candidate.t)
    (best : Candidate.t) : OptimizeResponse.t :=
  OptimizeResponse.mk
    origin_coords
    (Candidate.station best)
    (PyRound.round (Candidate.distance_km best) 2)
    (PyRound.round ((Candidate.distance_km best / 60) * 60)%float 1)
    [ [Coords.lat origin_coords; Coords.lon origin_coords];
      [Station.latitude (Candidate.station best); Station.longitude (Candidate.station best)] ]
    (map summarise candidates).

(** The distance calls of one pass over the stations. *)
Definition distance_calls (origin_coords : Coords.t) (stations : list Station.t)
    : list call :=
  map (fun s => CallGeodesic origin_coords (station_coords s)) stations.

(** The calls of the selection step: one pass, and a second one when no
    station is within the radius. *)
Definition selection_calls (origin_coords : Coords.t) (max_distance_km : float)
    (stations : list Station.t) : list call :=
  distance_calls origin_coords stations ++
  match within_radius origin_coords max_distance_km stations with
  | [] => distance_calls origin_coords stations
  | _ :: _ => []
  end.

Lemma collect_within_run (o : Coords.t) (maxd : float) (stations : list Station.t)
    (acc : list Candidate.t) (log : list call) :
  collect_within o maxd stations acc log
  = (Ok (acc ++ within_radius o maxd stations), log ++ distance_calls o stations).
Proof.
  revert acc log. induction stations as [|s rest IH]; intros acc log.
  - cbn. rewrite !app_nil_r. reflexivity.
  - cbn [collect_within]. cbv beta iota delta [bind haversine_km emit ret].
    cbn [station_coords Coords.lat Coords.lon].
    fold (distance_to o s). rewrite IH.
    unfold within_radius, distance_calls. cbn [annotate map filter].
    unfold in_radius. cbn [Candidate.distance_km].
    destruct (distance_to o s <=? maxd)%float; rewrite <- !app_assoc; reflexivity.
Qed.

Lemma with_distances_run (o : Coords.t) (stations : list Station.t) (log : list call) :
  with_distances o stations log = (Ok (annotate o stations), log ++ distance_calls o stations).
Proof.
  revert log. induction stations as [|s rest IH]; intros log.
  - cbn. rewrite app_nil_r. reflexivity.
  - cbn [with_distances]. cbv beta iota delta [bind haversine_km emit ret].
    cbn [station_coords Coords.lat Coords.lon].
    fold (distance_to o s). rewrite IH.
    unfold distance_calls. cbn [annotate map]. rewrite <- app_assoc. reflexivity.
Qed.
(** The outcome and the calls of [optimize_route], case by case. *)
Definition optimize_outcome (req : OptimizeRequest.t)
    : result OptimizeResponse.t * list call :=
  let q := OptimizeRequest.origin req in
  match resolve q with
  | None => (Raise (HTTPException 404 "Origin not found"), [CallGeocode q])
  | Some o =>
      match eligible req with
      | [] => (Raise (HTTPException 404 "No stations available for the given filter"),
               [CallGeocode q; CallListStations])
      | _ :: _ =>
          let maxd := OptimizeRequest.max_distance_km req in
          let candidates := select_candidates o maxd (eligible req) in
          (match PySeq.min Candidate.distance_km candidates with
           | None => Raise (ValueError "min() arg is an empty sequence")
           | Some best => Ok (respond o candidates best)
           end,
           [CallGeocode q; CallListStations] ++ selection_calls o maxd (eligible req))
      end
  end.



Lemma optimize_route_run (req : OptimizeRequest.t) (log : list call) :
  optimize_route req log
  = (fst (optimize_outcome req), log ++ snd (optimize_outcome req)).
Proof.
  unfold optimize_route, optimize_outcome, geocode_address, resolve.
  cbv beta iota delta [bind emit].
  destruct (geolocator_geocode (OptimizeRequest.origin req)) as [la lo| |];
    try reflexivity.
  cbv beta iota delta [ret list_stations bind emit].
  set (o := Coords.mk la lo). set (maxd := OptimizeRequest.max_distance_km req).
  assert (Ee : eligible req
               = if truthy (OptimizeRequest.preferred_charger req)
                 then match OptimizeRequest.preferred_charger req with
                      | Some preferred =>
                          filter (fun s => String.eqb (str_lower (Station.charger_type s))
                                                      (str_lower preferred)) snapshot
                      | None => snapshot
                      end
                 else snapshot) by reflexivity.
  unfold snapshot in Ee.
  destruct db as [get_documents|]; cbn [truthy] in *; rewrite <- Ee; clear Ee;
    (destruct (eligible req) as [|s0 rest];
     [ unfold raise; cbn [fst snd]; rewrite <- app_assoc; reflexivity
     | rewrite collect_within_run; cbn [app fst snd];
       unfold select_candidates, selection_calls;
       destruct (within_radius o maxd (s0 :: rest)) as [|c cs];
       [ rewrite with_distances_run | ];
       (destruct (PySeq.min _ _) as [best|]; unfold raise, respond; cbn [fst snd];
        rewrite <- ?app_assoc, ?app_nil_r; reflexivity) ]).
Qed.

(** ** Successful runs *)

Lemma optimize_route_ok (req : OptimizeRequest.t) (log log' : list call)
    (r : OptimizeResponse.t) :
  optimize_route req log = (Ok r, log') ->
  exists o best,
    resolve (OptimizeRequest.origin req) = Some o
    /\ eligible req <> []
    /\ PySeq.min Candidate.distance_km
         (select_candidates o (OptimizeRequest.max_distance_km req) (eligible req)) = Some best
    /\ r = respond o (select_candidates o (OptimizeRequest.max_distance_km req) (eligible req)) best.
Proof.
  rewrite optimize_route_run. unfold optimize_outcome.
  destruct (resolve (OptimizeRequest.origin req)) as [o|]; [|discriminate].
  destruct (eligible req) as [|s0 rest]; [discriminate|].
  cbv zeta. cbn [fst snd].
  destruct (PySeq.min _ _) as [best|] eqn:Emin; [|discriminate].
  intros E. inversion E; subst. exists o, best. repeat split; congruence.
Qed.

(** ** The selection step *)

Definition distances_ordered (o : Coords.t) (stations : list Station.t) : Prop :=
  Forall (fun s => PyFloat.ordered (distance_to o s)) stations.

Lemma annotate_keys_ordered (o : Coords.t) (stations : list Station.t) :
  distances_ordered o stations ->
  keys_ordered Candidate.distance_km (annotate o stations).
Proof.
  unfold keys_ordered, annotate. intros H. apply Forall_map. exact H.
Qed.

Lemma within_radius_in_radius (o : Coords.t) (maxd : float) (stations : list Station.t) :
  Forall (fun c => PyFloat.le (Candidate.distance_km c) maxd) (within_radius o maxd stations).
Proof.
  apply Forall_forall. intros c Hc. apply filter_In in Hc as [_ Hc]. exact Hc.
Qed.

(** A distance that passed [d_km <= max_distance_km] is not a NaN. *)
Lemma within_radius_keys_ordered (o : Coords.t) (maxd : float) (stations : list Station.t) :
  keys_ordered Candidate.distance_km (within_radius o maxd stations).
Proof.
  eapply Forall_impl; [|apply within_radius_in_radius].
  intros c Hc. eapply PyFloat.le_ordered_l, Hc.
Qed.

Lemma within_radius_nonempty_iff (o : Coords.t) (maxd : float) (stations : list Station.t) :
  within_radius o maxd stations <> []
  <-> exists s, In s stations /\ PyFloat.le (distance_to o s) maxd.
Proof.
  unfold within_radius, annotate. split.
  - destruct (filter _ _) as [|c cs] eqn:E; [congruence|]. intros _.
    assert (Hc : In c (c :: cs)) by (left; reflexivity).
    rewrite <- E in Hc. apply filter_In in Hc as [Hc Hr].
    apply in_map_iff in Hc as (s & <- & Hs). exists s. split; [exact Hs | exact Hr].
  - intros (s & Hs & Hr) E.
    assert (Hc : In (Candidate.mk s (distance_to o s))
                    (filter (in_radius maxd)
                       (map (fun s => Candidate.mk s (distance_to o s)) stations))).
    { apply filter_In. split; [|exact Hr].
      apply (in_map (fun s => Candidate.mk s (distance_to o s))), Hs. }
    rewrite E in Hc. contradiction.
Qed.

Lemma select_candidates_length (o : Coords.t) (maxd : float) (stations : list Station.t) :
  (List.length (select_candidates o maxd stations) <= 5)%nat.
Proof.
  unfold select_candidates. destruct (within_radius o maxd stations); apply firstn_le_length.
Qed.

Lemma firstn_nonempty (A : Type) (n : nat) (l : list A) :
  l <> [] -> firstn (S n) l <> [].
Proof. destruct l; [congruence | discriminate]. Qed.

Lemma sorted_nonempty (A : Type) (key : A -> float) (l : list A) :
  l <> [] -> PySeq.sorted key l <> [].
Proof. intros H E. apply H. eapply sorted_nil_inv, E. Qed.

Lemma annotate_nonempty (o : Coords.t) (stations : list Station.t) :
  stations <> [] -> annotate o stations <> [].
Proof. destruct stations; [congruence | discriminate]. Qed.

Lemma select_candidates_nonempty (o : Coords.t) (maxd : float) (stations : list Station.t) :
  stations <> [] -> select_candidates o maxd stations <> [].
Proof.
  intros H. unfold select_candidates.
  destruct (within_radius o maxd stations) as [|c cs] eqn:E.
  - apply firstn_nonempty, sorted_nonempty, annotate_nonempty, H.
  - apply firstn_nonempty, sorted_nonempty. discriminate.
Qed.

Lemma select_candidates_ascending (o : Coords.t) (maxd : float) (stations : list Station.t) :
  within_radius o maxd stations <> [] \/ distances_ordered o stations ->
  PySeq.ascending Candidate.distance_km (select_candidates o maxd stations).
Proof.
  intros H. unfold select_candidates.
  destruct (within_radius o maxd stations) as [|c cs] eqn:E.
  - destruct H as [H|H]; [congruence|].
    apply firstn_ascending, sorted_ascending, annotate_keys_ordered, H.
  - rewrite <- E. apply firstn_ascending, sorted_ascending, within_radius_keys_ordered.
Qed.

Lemma select_candidates_pool (o : Coords.t) (maxd : float) (stations : list Station.t) :
  exists pool,
    select_candidates o maxd stations = firstn 5 (PySeq.sorted Candidate.distance_km pool)
    /\ (pool = within_radius o maxd stations /\ pool <> []
        \/ pool = annotate o stations /\ within_radius o maxd stations = []).
Proof.
  unfold select_candidates.
  destruct (within_radius o maxd stations) as [|c cs] eqn:E.
  - exists (annotate o stations). split; [reflexivity | right; split; reflexivity].
  - exists (c :: cs). split; [reflexivity | left; split; [reflexivity | discriminate]].
Qed.

(** Every selected candidate is a station of the list with its distance. *)
Lemma select_candidates_from (o : Coords.t) (maxd : float) (stations : list Station.t)
    (c : Candidate.t) :
  In c (select_candidates o maxd stations) ->
  In (Candidate.station c) stations
  /\ Candidate.distance_km c = distance_to o (Candidate.station c).
Proof.
  intros Hc.
  assert (Ha : In c (annotate o stations)).
  { destruct (select_candidates_pool o maxd stations) as (pool & E & [[-> _]|[-> _]]);
      rewrite E in Hc; apply firstn_In in Hc;
      apply (Permutation_in _ (sorted_perm Candidate.distance_km _)) in Hc.
    - unfold within_radius in Hc. apply filter_In in Hc. tauto.
    - exact Hc. }
  unfold annotate in Ha. apply in_map_iff in Ha as (s & <- & Hs). split; [exact Hs | reflexivity].
Qed.

(* ================================================================== *)
(** * The properties of the specification *)
(* ================================================================== *)

(** C1. Whenever a run succeeds, the candidates it reports are those of
    the selection step over a non-empty station list.  If at least one
    station's distance is [<= max_distance_km], every selected candidate
    lies within [max_distance_km], the selection is ascending by
    distance, has at most 5 items, and is a nearest prefix of the
    stations within the radius.  If no station is within the radius (and
    no distance is a NaN), the radius is ignored: the selection is the
    ascending list of the [min 5 n] globally nearest of all [n]
    stations. *)
Theorem selection_within_radius_or_nearest
    (req : OptimizeRequest.t) (log log' : list call) (r : OptimizeResponse.t)
    (o : Coords.t) :
  optimize_route req log = (Ok r, log') ->
  resolve (OptimizeRequest.origin req) = Some o ->
  let maxd := OptimizeRequest.max_distance_km req in
  let stations := eligible req in
  let selected := select_candidates o maxd stations in
  stations <> []
  /\ OptimizeResponse.candidates r = map summarise selected
  /\ ((exists s, In s stations /\ PyFloat.le (distance_to o s) maxd) ->
      Forall (fun c => PyFloat.le (Candidate.distance_km c) maxd) selected
      /\ PySeq.ascending Candidate.distance_km selected
      /\ (List.length selected <= 5)%nat
      /\ exists rest,
           Permutation (within_radius o maxd stations) (selected ++ rest)
           /\ forall c x, In c selected -> In x rest ->
                PyFloat.le (Candidate.distance_km c) (Candidate.distance_km x))
  /\ ((forall s, In s stations -> ~ PyFloat.le (distance_to o s) maxd) ->
      distances_ordered o stations ->
      PySeq.ascending Candidate.distance_km selected
      /\ List.length selected = Nat.min 5 (List.length stations)
      /\ exists rest,
           Permutation (annotate o stations) (selected ++ rest)
           /\ forall c x, In c selected -> In x rest ->
                PyFloat.le (Candidate.distance_km c) (Candidate.distance_km x)).
Proof.
  intros Hrun Ho maxd stations selected.
  apply optimize_route_ok in Hrun as (o' & best & Ho' & Hne & _ & Er).
  rewrite Ho in Ho'. inversion Ho'; subst o'. clear Ho'.
  split; [exact Hne|]. split; [rewrite Er; reflexivity|]. split.
  - intros Hin. apply within_radius_nonempty_iff in Hin.
    assert (Es : selected
                 = firstn 5 (PySeq.sorted Candidate.distance_km (within_radius o maxd stations))).
    { unfold selected, select_candidates.
      destruct (within_radius o maxd stations); [congruence | reflexivity]. }
    split; [|split; [|split]].
    + rewrite Es. apply Forall_forall. intros c Hc. apply firstn_In in Hc.
      apply (Permutation_in _ (sorted_perm Candidate.distance_km _)) in Hc.
      revert c Hc. apply Forall_forall, within_radius_in_radius.
    + apply select_candidates_ascending. left. exact Hin.
    + apply select_candidates_length.
    + rewrite Es. apply firstn_sorted_nearest, within_radius_keys_ordered.
  - intros Hout Hord.
    assert (Ew : within_radius o maxd stations = []).
    { destruct (within_radius o maxd stations) as [|c cs] eqn:E; [reflexivity|].
      assert (Hx : within_radius o maxd stations <> []) by (rewrite E; discriminate).
      apply within_radius_nonempty_iff in Hx as (s & Hs & Hle).
      exfalso. exact (Hout s Hs Hle). }
    assert (Es : selected
                 = firstn 5 (PySeq.sorted Candidate.distance_km (annotate o stations))).
    { unfold selected, select_candidates. rewrite Ew. reflexivity. }
    split; [|split].
    + apply select_candidates_ascending. right. exact Hord.
    + rewrite Es, length_firstn, sorted_length. unfold annotate. rewrite length_map. reflexivity.
    + rewrite Es. apply firstn_sorted_nearest, annotate_keys_ordered, Hord.
Qed.

(** C2. The candidates of a successful run are at most 5 and ascending
    by their reported [distance_km] (the distance rounded to 2
    decimals), whichever branch selected them.  When no station is
    within the radius, the distances are taken not to be NaN: a distance
    that passed the radius test is not one. *)
Theorem candidates_sorted_at_most_five
    (req : OptimizeRequest.t) (log log' : list call) (r : OptimizeResponse.t) :
  optimize_route req log = (Ok r, log') ->
  (forall o, resolve (OptimizeRequest.origin req) = Some o ->
             within_radius o (OptimizeRequest.max_distance_km req) (eligible req) <> []
             \/ distances_ordered o (eligible req)) ->
  (List.length (OptimizeResponse.candidates r) <= 5)%nat
  /\ StronglySorted
       (fun a b => PyFloat.le (CandidateSummary.distance_km a) (CandidateSummary.distance_km b))
       (OptimizeResponse.candidates r).
Proof.
  intros Hrun Hord.
  apply optimize_route_ok in Hrun as (o & best & Ho & Hne & _ & ->).
  specialize (Hord o Ho). cbn [respond OptimizeResponse.candidates].
  split.
  - rewrite length_map. apply select_candidates_length.
  - eapply StronglySorted_map;
      [|apply select_candidates_ascending; exact Hord].
    intros a b _ _ Hab. unfold summarise. cbn [CandidateSummary.distance_km].
    apply PyRound.round_mono, Hab.
Qed.



(** C5 (as amended). For a request whose [preferred_charger] is a
    non-empty string [p]: the stations kept are exactly those of the
    snapshot whose [charger_type], lowered, equals [p] lowered; when none
    is kept no result is returned, and once the origin is resolved the
    run fails with the 404 "No stations available for the given filter"
    before any distance is computed; and in a successful run the best
    station and every candidate come from the kept stations. *)
Theorem preferred_charger_filter (req : OptimizeRequest.t) (p : string) :
  OptimizeRequest.preferred_charger req = Some p ->
  p <> "" ->
  eligible req = filter (matches_charger p) snapshot
  /\ (forall log,
        eligible req = [] ->
        (forall r, fst (optimize_route req log) <> Ok r)
        /\ (forall o, resolve (OptimizeRequest.origin req) = Some o ->
              optimize_route req log
              = (Raise (HTTPException 404 "No stations available for the given filter"),
                 log ++ [CallGeocode (OptimizeRequest.origin req); CallListStations])))
  /\ (forall log log' r,
        optimize_route req log = (Ok r, log') ->
        In (OptimizeResponse.best_station r) snapshot
        /\ str_lower (Station.charger_type (OptimizeResponse.best_station r)) = str_lower p
        /\ Forall (fun c => str_lower (CandidateSummary.charger_type c) = str_lower p)
                  (OptimizeResponse.candidates r)).
Proof.
  intros Hp Hne.
  assert (Ee : eligible req = filter (matches_charger p) snapshot).
  { unfold eligible. rewrite Hp. cbn [truthy].
    destruct (String.eqb_spec p ""); [contradiction | reflexivity]. }
  split; [exact Ee|]. split.
  - intros log Hnil. rewrite optimize_route_run. unfold optimize_outcome.
    rewrite Hnil. split.
    + intros r. destruct (resolve (OptimizeRequest.origin req)); cbn [fst]; discriminate.
    + intros o ->. reflexivity.
  - intros log log' r Hrun.
    apply optimize_route_ok in Hrun as (o & best & Ho & _ & Hmin & ->).
    cbn [respond OptimizeResponse.best_station OptimizeResponse.candidates].
    assert (Hkept : forall c,
              In c (select_candidates o (OptimizeRequest.max_distance_km req) (eligible req)) ->
              In (Candidate.station c) snapshot
              /\ str_lower (Station.charger_type (Candidate.station c)) = str_lower p).
    { intros c Hc. apply select_candidates_from in Hc as [Hs _].
      rewrite Ee in Hs. apply filter_In in Hs as [Hs Hm].
      split; [exact Hs|]. apply String.eqb_eq, Hm. }
    split; [|split].
    + apply Hkept, (min_In _ _ Hmin).
    + apply Hkept, (min_In _ _ Hmin).
    + apply Forall_map, Forall_forall. intros c Hc. apply Hkept, Hc.
Qed.

(** C6. When the origin cannot be geocoded, because the geocoder finds
    no match or because it fails (the two are not told apart),
    [geocode_address] returns [None] and the run raises the 404 "Origin
    not found"; the geocoder call is the only call made, so that neither
    the station listing nor any distance computation is started, and no
    result is returned. *)
Theorem origin_not_found (req : OptimizeRequest.t) (log : list call) :
  geolocator_geocode (OptimizeRequest.origin req) = NoLocation
  \/ geolocator_geocode (OptimizeRequest.origin req) = GeocoderError ->
  geocode_address (OptimizeRequest.origin req) log
  = (Ok None, log ++ [CallGeocode (OptimizeRequest.origin req)])
  /\ optimize_route req log
     = (Raise (HTTPException 404 "Origin not found"),
        log ++ [CallGeocode (OptimizeRequest.origin req)]).
Proof.
  intros H. split.
  - unfold geocode_address, bind, emit, ret. destruct H as [-> | ->]; reflexivity.
  - rewrite optimize_route_run. unfold optimize_outcome, resolve.
    destruct H as [-> | ->]; reflexivity.
Qed.

(** C7. In a successful run [route_polyline] is the two-point list made
    of the resolved origin, which is also the [origin] reported, and of
    the best station's coordinates, in that order. *)
Theorem route_polyline_two_points
    (req : OptimizeRequest.t) (log log' : list call) (r : OptimizeResponse.t) :
  optimize_route req log = (Ok r, log') ->
  exists o,
    resolve (OptimizeRequest.origin req) = Some o
    /\ OptimizeResponse.origin r = o
    /\ OptimizeResponse.route_polyline r
       = [ [Coords.lat o; Coords.lon o];
           [Station.latitude (OptimizeResponse.best_station r);
            Station.longitude (OptimizeResponse.best_station r)] ]
    /\ List.length (OptimizeResponse.route_polyline r) = 2%nat.
Proof.
  intros Hrun.
  apply optimize_route_ok in Hrun as (o & best & Ho & _ & _ & ->).
  exists o. repeat split. exact Ho.
Qed.


(** On a resolved origin and a non-empty station list the run succeeds:
    [min] is never given an empty list. *)
Lemma optimize_route_succeeds (req : OptimizeRequest.t) (log : list call) (o : Coords.t) :
  resolve (OptimizeRequest.origin req) = Some o ->
  eligible req <> [] ->
  exists r, optimize_route req log
            = (Ok r, log ++ [CallGeocode (OptimizeRequest.origin req); CallListStations]
                         ++ selection_calls o (OptimizeRequest.max_distance_km req) (eligible req)).
Proof.
  intros Ho Hne. rewrite optimize_route_run. unfold optimize_outcome. rewrite Ho.
  destruct (eligible req) as [|s0 rest] eqn:E; [congruence|]. cbv zeta.
  destruct (@min_nonempty _ Candidate.distance_km
              (select_candidates o (OptimizeRequest.max_distance_km req) (s0 :: rest)))
    as (best & ->).
  - apply select_candidates_nonempty. discriminate.
  - eexists. reflexivity.
Qed.

(** C10. With no preferred charger and an empty station snapshot, a run
    whose origin is resolved fails with the 404 "No stations available
    for the given filter", after the geocoder and the station listing
    and before any distance call; a request on the same origin whose
    charger filter leaves no station fails in the very same way. *)
Theorem empty_snapshot_same_error
    (req : OptimizeRequest.t) (log : list call) (o : Coords.t) :
  OptimizeRequest.preferred_charger req = None ->
  snapshot = [] ->
  resolve (OptimizeRequest.origin req) = Some o ->
  optimize_route req log
  = (Raise (HTTPException 404 "No stations available for the given filter"),
     log ++ [CallGeocode (OptimizeRequest.origin req); CallListStations])
  /\ forall req',
       OptimizeRequest.origin req' = OptimizeRequest.origin req ->
       eligible req' = [] ->
       optimize_route req' log = optimize_route req log.
Proof.
  intros Hp Hs Ho.
  assert (Ee : eligible req = []) by (unfold eligible; rewrite Hp; exact Hs).
  assert (Hfail : forall q, OptimizeRequest.origin q = OptimizeRequest.origin req ->
            eligible q = [] ->
            optimize_route q log
            = (Raise (HTTPException 404 "No stations available for the given filter"),
               log ++ [CallGeocode (OptimizeRequest.origin req); CallListStations])).
  { intros q Hq Hnil. rewrite optimize_route_run. unfold optimize_outcome.
    rewrite Hq, Ho, Hnil. reflexivity. }
  split.
  - apply Hfail; [reflexivity | exact Ee].
  - intros req' Hq Hnil. rewrite (Hfail req' Hq Hnil), (Hfail req eq_refl Ee). reflexivity.
Qed.

End Handlers.

(* ================================================================== *)
(** * A concrete world *)
(* ================================================================== *)

(** A geocoder that knows two places, a station collection of seven, the
    distances the geodesic reports from Potsdam to each of them, and
    [str.lower] on ASCII letters. *)

Module Scenario.

Definition lower_ascii (c : ascii) : ascii :=
  let n := nat_of_ascii c in
  if ((65 <=? n) && (n <=? 90))%nat then ascii_of_nat (n + 32) else c.

Fixpoint lower (s : string) : string :=
  match s with
  | EmptyString => EmptyString
  | String c s' => String (lower_ascii c) (lower s')
  end.

Definition geocoder (query : string) : geocoder_reply :=
  if String.eqb query "Potsdam" then Located 52.3906%float 13.0645%float
  else if String.eqb query "Berlin" then Located 52.52%float 13.405%float
  else if String.eqb query "unreachable" then GeocoderError
  else NoLocation.

Definition potsdam : Coords.t := Coords.mk 52.3906%float 13.0645%float.

Definition station (name : string) (la lo : float) (charger : string) (kw : float)
    : Station.t :=
  Station.mk None name la lo charger kw None (Some "unknown") None.

Definition ionity_berlin := station "IONITY Berlin" 52.5208%float 13.4095%float "CCS" 150%float.
Definition tesla_munich := station "Tesla Supercharger Munich" 48.1371%float 11.5754%float "CCS" 250%float.
Definition tata_mumbai := station "Tata Power Mumbai" 19.076%float 72.8777%float "Type2" 30%float.
Definition delhi_hub := station "Delhi EV Hub" 28.6139%float 77.209%float "CHAdeMO" 50%float.
Definition london_fast := station "London FastCharge" 51.5074%float (-0.1278)%float "CCS" 120%float.
Definition leipzig_hub := station "Leipzig Hub" 51.3397%float 12.3731%float "ccs" 75%float.
Definition hamburg_port := station "Hamburg Port" 53.5511%float 9.9937%float "Type2" 22%float.

Definition stations : list Station.t :=
  [tesla_munich; ionity_berlin; tata_mumbai; delhi_hub; london_fast; leipzig_hub; hamburg_port].

Definition database : option (option string -> option string -> list Station.t) :=
  Some (fun _ _ => stations).

Definition empty_database : option (option string -> option string -> list Station.t) :=
  Some (fun _ _ => []).

(** Kilometres from the origin to the station at latitude [Coords.lat b]. *)
Definition geodesic (a b : Coords.t) : float :=
  let la := Coords.lat b in
  if (la =? 52.5208)%float then 30.75%float
  else if (la =? 48.1371)%float then 486.5%float
  else if (la =? 19.076)%float then 6310.25%float
  else if (la =? 28.6139)%float then 5780.5%float
  else if (la =? 51.5074)%float then 930%float
  else if (la =? 51.3397)%float then 120.125%float
  else if (la =? 53.5511)%float then 255.5%float
  else 0%float.

Definition run (db : option (option string -> option string -> list Station.t))
    (req : OptimizeRequest.t) : result OptimizeResponse.t * list call :=
  optimize_route geocoder db geodesic lower req [].

(** Radius 50 km: the Berlin station only.  Radius 10 km: no station. *)
Definition near_potsdam : OptimizeRequest.t := OptimizeRequest.mk "Potsdam" 50%float None.
Definition too_tight : OptimizeRequest.t := OptimizeRequest.mk "Potsdam" 10%float None.
Definition wants_ccs : OptimizeRequest.t := OptimizeRequest.mk "Potsdam" 1000%float (Some "ccs").
Definition wants_nothing : OptimizeRequest.t := OptimizeRequest.mk "Potsdam" 50%float (Some "").
Definition from_atlantis : OptimizeRequest.t := OptimizeRequest.mk "Atlantis" 50%float None.

End Scenario.



(** No distance of the scenario is a NaN. *)
Lemma scenario_distances_ordered (o : Coords.t) :
  distances_ordered Scenario.geodesic o Scenario.stations.
Proof. repeat constructor. Qed.

(** Both requests from Potsdam succeed. *)
Lemma scenario_too_tight_runs :
  exists r log', Scenario.run Scenario.database Scenario.too_tight = (Ok r, log').
Proof. eexists. eexists. vm_compute. reflexivity. Qed.

Lemma scenario_near_potsdam_runs :
  exists r log', Scenario.run Scenario.database Scenario.near_potsdam = (Ok r, log').
Proof. eexists. eexists. vm_compute. reflexivity. Qed.

(** ** Witnesses: the hypotheses of the theorems hold in the scenario *)

(** Radius 10 km from Potsdam: no station is within it, and the five
    nearest of the seven stations are selected. *)
Lemma selection_within_radius_or_nearest_witness :
  exists r log',
    Scenario.run Scenario.database Scenario.too_tight = (Ok r, log')
    /\ resolve Scenario.geocoder "Potsdam" = Some Scenario.potsdam
    /\ OptimizeResponse.candidates r
       = map summarise
           (select_candidates Scenario.geodesic Scenario.potsdam 10%float Scenario.stations)
    /\ PySeq.ascending Candidate.distance_km
         (select_candidates Scenario.geodesic Scenario.potsdam 10%float Scenario.stations)
    /\ List.length
         (select_candidates Scenario.geodesic Scenario.potsdam 10%float Scenario.stations)
       = 5%nat.
Proof.
  destruct scenario_too_tight_runs as (r & log' & Hrun).
  exists r, log'. split; [exact Hrun|]. split; [reflexivity|].
  destruct (@selection_within_radius_or_nearest Scenario.geocoder Scenario.database
              Scenario.geodesic Scenario.lower Scenario.too_tight [] log' r Scenario.potsdam
              Hrun eq_refl) as (_ & Hc & _ & Hfar).
  split; [exact Hc|].
  destruct Hfar as (Hasc & Hlen & _).
  - intros s Hs Hle.
    repeat (destruct Hs as [<-|Hs]; [vm_compute in Hle; discriminate|]). contradiction.
  - apply scenario_distances_ordered.
  - split; [exact Hasc | exact Hlen].
Defined.

Lemma candidates_sorted_at_most_five_witness :
  exists r log',
    Scenario.run Scenario.database Scenario.too_tight = (Ok r, log')
    /\ (List.length (OptimizeResponse.candidates r) <= 5)%nat
    /\ StronglySorted
         (fun a b => PyFloat.le (CandidateSummary.distance_km a) (CandidateSummary.distance_km b))
         (OptimizeResponse.candidates r).
Proof.
  destruct scenario_too_tight_runs as (r & log' & Hrun).
  exists r, log'. split; [exact Hrun|].
  apply (@candidates_sorted_at_most_five Scenario.geocoder Scenario.database
           Scenario.geodesic Scenario.lower Scenario.too_tight [] log' r Hrun).
  intros o _. right. apply scenario_distances_ordered.
Defined.



Lemma preferred_charger_filter_witness :
  OptimizeRequest.preferred_charger Scenario.wants_ccs = Some "ccs"
  /\ "ccs" <> ""
  /\ eligible Scenario.database Scenario.lower Scenario.wants_ccs
     = filter (matches_charger Scenario.lower "ccs") (snapshot Scenario.database).
Proof.
  assert (Hne : "ccs" <> "") by discriminate.
  split; [reflexivity|]. split; [exact Hne|].
  apply (@preferred_charger_filter Scenario.geocoder Scenario.database
           Scenario.geodesic Scenario.lower Scenario.wants_ccs "ccs" eq_refl Hne).
Defined.

Lemma origin_not_found_witness :
  Scenario.geocoder "Atlantis" = NoLocation
  /\ Scenario.run Scenario.database Scenario.from_atlantis
     = (Raise (HTTPException 404 "Origin not found"), [CallGeocode "Atlantis"]).
Proof.
  split; [reflexivity|].
  apply (@origin_not_found Scenario.geocoder Scenario.database
           Scenario.geodesic Scenario.lower Scenario.from_atlantis []).
  left. reflexivity.
Defined.

Lemma route_polyline_two_points_witness :
  exists r log',
    Scenario.run Scenario.database Scenario.near_potsdam = (Ok r, log')
    /\ OptimizeResponse.route_polyline r
       = [ [Coords.lat Scenario.potsdam; Coords.lon Scenario.potsdam];
           [Station.latitude (OptimizeResponse.best_station r);
            Station.longitude (OptimizeResponse.best_station r)] ].
Proof.
  destruct scenario_near_potsdam_runs as (r & log' & Hrun).
  exists r, log'. split; [exact Hrun|].
  destruct (@route_polyline_two_points Scenario.geocoder Scenario.database
              Scenario.geodesic Scenario.lower Scenario.near_potsdam [] log' r Hrun)
    as (o & Ho & _ & Hroute & _).
  vm_compute in Ho. injection Ho as <-. exact Hroute.
Defined.


Lemma empty_snapshot_same_error_witness :
  snapshot Scenario.empty_database = []
  /\ Scenario.run Scenario.empty_database Scenario.near_potsdam
     = (Raise (HTTPException 404 "No stations available for the given filter"),
        [CallGeocode "Potsdam"; CallListStations]).
Proof.
  split; [reflexivity|].
  exact (proj1 (@empty_snapshot_same_error Scenario.geocoder Scenario.empty_database
                  Scenario.geodesic Scenario.lower Scenario.near_potsdam [] Scenario.potsdam
                  eq_refl eq_refl eq_refl)).
Defined.

(** ** Counterexamples *)


(** C5 as stated fails on the empty string: the preference is set, no
    station's charger type equals it in any case, and yet no filter is
    applied and a station is returned. *)
Lemma empty_preference_is_not_a_filter :
  exists r log',
    OptimizeRequest.preferred_charger Scenario.wants_nothing = Some ""
    /\ filter (matches_charger Scenario.lower "") (snapshot Scenario.database) = []
    /\ Scenario.run Scenario.database Scenario.wants_nothing = (Ok r, log')
    /\ OptimizeResponse.best_station r = Scenario.ionity_berlin
    /\ Scenario.lower (Station.charger_type (OptimizeResponse.best_station r))
       <> Scenario.lower "".
Proof.
  eexists. eexists. split; [reflexivity|]. split; [reflexivity|].
  split; [vm_compute; reflexivity|]. split; [reflexivity | discriminate].
Qed.
(* ================================================================== *)
(** * More about the optimizer *)
(* ================================================================== *)

Section FirstMinimum.

Variable A : Type.
Variable key : A -> float.

(** An item splits a list as its first minimum when what comes before it
    is strictly greater and what comes after it is not smaller. *)
Definition first_min_split (before : list A) (c : A) (after : list A) : Prop :=
  Forall (fun x => PyFloat.lt (key c) (key x)) before
  /\ Forall (fun x => PyFloat.le (key c) (key x)) after.

(** A list has at most one first minimum. *)
Lemma first_min_unique (b b' a a' : list A) (c c' : A) :
  b ++ c :: a = b' ++ c' :: a' ->
  first_min_split b c a -> first_min_split b' c' a' ->
  b = b' /\ c = c' /\ a = a'.
Proof.
  revert b'. induction b as [|x b IH]; intros [|x' b'] E [Hb Ha] [Hb' Ha']; cbn [app] in E.
  - injection E as -> ->. repeat split.
  - exfalso. injection E as -> ->.
    apply Forall_inv in Hb'.
    rewrite Forall_forall in Ha.
    assert (Hle : PyFloat.le (key x') (key c')) by (apply Ha, in_elt).
    unfold PyFloat.lt in Hb'. rewrite (PyFloat.le_not_gt Hle) in Hb'. discriminate.
  - exfalso. injection E as -> <-.
    apply Forall_inv in Hb.
    rewrite Forall_forall in Ha'.
    assert (Hle : PyFloat.le (key c') (key c)) by (apply Ha', in_elt).
    unfold PyFloat.lt in Hb. rewrite (PyFloat.le_not_gt Hle) in Hb. discriminate.
  - assert (Ex : x = x') by congruence.
    assert (Et : b ++ c :: a = b' ++ c' :: a') by congruence.
    subst x'. destruct (IH b' Et) as (-> & -> & ->).
    + split; [eapply Forall_inv_tail; exact Hb | exact Ha].
    + split; [eapply Forall_inv_tail; exact Hb' | exact Ha'].
    + repeat split.
Qed.

Lemma Forall_filter_keep (P : A -> Prop) (p : A -> bool) (l : list A) :
  Forall P l -> Forall P (filter p l).
Proof.
  intros H. apply Forall_forall. intros x Hx. apply filter_In in Hx as [Hx _].
  rewrite Forall_forall in H. apply H, Hx.
Qed.

(** The first minimum of a list is the first minimum of any selection
    of its items that keeps it. *)
Lemma first_min_filter (p : A -> bool) (b a : list A) (c : A) :
  first_min_split b c a -> p c = true ->
  filter p (b ++ c :: a) = filter p b ++ c :: filter p a
  /\ first_min_split (filter p b) c (filter p a).
Proof.
  intros [Hb Ha] Hc. split.
  - rewrite filter_app. cbn [filter]. rewrite Hc. reflexivity.
  - split; apply Forall_filter_keep; assumption.
Qed.

(** A list is made of the items a test keeps and of those it drops. *)
Lemma filter_split_perm (p : A -> bool) (l : list A) :
  Permutation l (filter p l ++ filter (fun x => negb (p x)) l).
Proof.
  induction l as [|x l IH]; cbn [filter]; [apply perm_nil|].
  destruct (p x); cbn [negb app].
  - apply perm_skip, IH.
  - apply Permutation_cons_app, IH.
Qed.

(** What [<=] all the items of a list is inserted at its head. *)
Lemma insert_least (x : A) (l : list A) :
  Forall (fun z => PyFloat.le (key x) (key z)) l -> PySeq.insert key x l = x :: l.
Proof.
  destruct l as [|y l]; [reflexivity|]. intros H. apply Forall_inv in H.
  cbn [PySeq.insert]. rewrite (PyFloat.le_not_gt H). reflexivity.
Qed.

(** Selecting commutes with sorting: the kept items of the sorted list
    are the sorted kept items. *)
Lemma insert_filter (p : A -> bool) (x : A) (l : list A) :
  PyFloat.ordered (key x) -> keys_ordered key l -> PySeq.ascending key l ->
  filter p (PySeq.insert key x l)
  = if p x then PySeq.insert key x (filter p l) else filter p l.
Proof.
  intros Ox Ol Hs. induction Hs as [|y l Hs IH Hy].
  - cbn. destruct (p x); reflexivity.
  - apply Forall_cons_iff in Ol as [Oy Ol]. specialize (IH Ol).
    cbn [PySeq.insert]. destruct (key y <? key x)%float eqn:Elt.
    + cbn [filter]. rewrite IH. destruct (p x), (p y); try reflexivity.
      cbn [PySeq.insert]. rewrite Elt. reflexivity.
    + assert (Hxy : PyFloat.le (key x) (key y)) by (apply PyFloat.not_gt_le; assumption).
      change (filter p (x :: y :: l)) with (if p x then x :: filter p (y :: l) else filter p (y :: l)).
      destruct (p x); [|reflexivity].
      symmetry. apply insert_least, Forall_filter_keep.
      constructor; [exact Hxy|].
      eapply Forall_impl; [|exact Hy]. intros z Hz. eapply PyFloat.le_trans; eassumption.
Qed.

Lemma sorted_filter (p : A -> bool) (l : list A) :
  keys_ordered key l ->
  filter p (PySeq.sorted key l) = PySeq.sorted key (filter p l).
Proof.
  induction 1 as [|x l Ox Ol IH]; [reflexivity|].
  cbn [PySeq.sorted fold_right filter]. fold (PySeq.sorted key l).
  rewrite insert_filter;
    [| exact Ox | apply sorted_Forall, Ol | apply sorted_ascending, Ol].
  rewrite IH. destruct (p x); reflexivity.
Qed.

(** In an ascending list, the items a test keeps come first when the
    test keeps whatever is not greater than an item it keeps. *)
Lemma ascending_filter_first (p : A -> bool) (l : list A) :
  PySeq.ascending key l ->
  (forall a b, PyFloat.le (key a) (key b) -> p b = true -> p a = true) ->
  l = filter p l ++ filter (fun x => negb (p x)) l.
Proof.
  intros Hs Hp. induction Hs as [|y l Hs IH Hy]; [reflexivity|].
  cbn [filter]. destruct (p y) eqn:Ey; cbn [negb app].
  - f_equal. exact IH.
  - assert (Hnone : forall z, In z l -> p z = false).
    { intros z Hz. rewrite Forall_forall in Hy. specialize (Hy z Hz).
      destruct (p z) eqn:Ez; [|reflexivity]. rewrite (Hp y z Hy Ez) in Ey. discriminate. }
    assert (E1 : filter p l = []).
    { clear -Hnone. induction l as [|z l IH]; [reflexivity|]. cbn [filter].
      rewrite (Hnone z (or_introl eq_refl)). apply IH. intros w Hw. apply Hnone. right. exact Hw. }
    assert (E2 : filter (fun x => negb (p x)) l = l).
    { clear -Hnone. induction l as [|z l IH]; [reflexivity|]. cbn [filter].
      rewrite (Hnone z (or_introl eq_refl)). cbn [negb]. f_equal.
      apply IH. intros w Hw. apply Hnone. right. exact Hw. }
    rewrite E1, E2. reflexivity.
Qed.

End FirstMinimum.

Section OptimizerFacts.

Variable geolocator_geocode : string -> geocoder_reply.
Variable db : option (option string -> option string -> list Station.t).
Variable geodesic_km : Coords.t -> Coords.t -> float.
Variable str_lower : string -> string.

Local Abbreviation optimize := (optimize_route geolocator_geocode db geodesic_km str_lower).
Local Abbreviation resolved := (resolve geolocator_geocode).
Local Abbreviation kept := (eligible db str_lower).
Local Abbreviation selected := (select_candidates geodesic_km).
Local Abbreviation in_reach := (within_radius geodesic_km).
Local Abbreviation measured := (annotate geodesic_km).
Local Abbreviation far := (distance_to geodesic_km).
Local Abbreviation no_nan := (distances_ordered geodesic_km).

(** The first selected candidate is the first, in input order, of the
    nearest stations of the whole list, in either branch. *)
Lemma selected_head_first_min (o : Coords.t) (maxd : float) (stations : list Station.t)
    (c0 : Candidate.t) (rest : list Candidate.t) :
  no_nan o stations ->
  selected o maxd stations = c0 :: rest ->
  exists before after,
    measured o stations = before ++ c0 :: after
    /\ first_min_split Candidate.distance_km before c0 after.
Proof.
  intros Hord Hsel.
  pose proof (annotate_keys_ordered Hord) as Oall.
  destruct (select_candidates_pool geodesic_km o maxd stations) as (pool & Es & Hpool).
  rewrite Hsel in Es.
  destruct (PySeq.sorted Candidate.distance_km pool) as [|h tl] eqn:Esorted;
    [discriminate|].
  change (firstn 5 (h :: tl)) with (h :: firstn 4 tl) in Es.
  assert (Eh : h = c0) by congruence. subst h.
  destruct Hpool as [[-> Hne]|[-> _]].
  - (* some station is within the radius *)
    destruct (sorted_head_first_min (within_radius_keys_ordered geodesic_km o maxd stations)
                Esorted) as (b & a & Ef & Hb & Ha).
    assert (Hc0 : In c0 (in_reach o maxd stations)) by (rewrite Ef; apply in_elt).
    unfold within_radius in Hc0. apply filter_In in Hc0 as [Hin Hreach].
    destruct (PySeq.sorted Candidate.distance_km (measured o stations)) as [|m tm] eqn:Eall.
    { apply sorted_nil_inv in Eall. rewrite Eall in Hin. contradiction. }
    destruct (sorted_head_first_min Oall Eall) as (B & A0 & El & HB & HA).
    assert (Hm : PyFloat.le (Candidate.distance_km m) (Candidate.distance_km c0)).
    { rewrite El in Hin. apply in_app_or in Hin as [Hin|[<-|Hin]].
      - rewrite Forall_forall in HB. apply PyFloat.lt_le, HB, Hin.
      - unfold keys_ordered in Oall. rewrite El in Oall.
        apply Forall_app in Oall as [_ Oall]. apply Forall_inv in Oall. exact Oall.
      - rewrite Forall_forall in HA. apply HA, Hin. }
    assert (Hpm : in_radius maxd m = true) by (eapply PyFloat.le_trans; eassumption).
    destruct (first_min_filter (in_radius maxd) (conj HB HA) Hpm) as [Efm Hsplit].
    unfold within_radius in Ef. rewrite El, Efm in Ef.
    destruct (first_min_unique Ef Hsplit (conj Hb Ha)) as (_ & -> & _).
    exists B, A0. split; [exact El | split; assumption].
  - destruct (sorted_head_first_min Oall Esorted) as (b & a & Ef & Hb & Ha).
    exists b, a. split; [exact Ef | split; assumption].
Qed.

Lemma run_best_first_min (req : OptimizeRequest.t) (log log' : list call)
    (r : OptimizeResponse.t) :
  optimize req log = (Ok r, log') ->
  (forall o, resolved (OptimizeRequest.origin req) = Some o -> no_nan o (kept req)) ->
  exists o c0 rest before after,
    resolved (OptimizeRequest.origin req) = Some o
    /\ selected o (OptimizeRequest.max_distance_km req) (kept req) = c0 :: rest
    /\ r = respond o (c0 :: rest) c0
    /\ measured o (kept req) = before ++ c0 :: after
    /\ first_min_split Candidate.distance_km before c0 after.
Proof.
  intros Hrun Hord.
  apply optimize_route_ok in Hrun as (o & best & Ho & Hne & Hmin & ->).
  specialize (Hord o Ho).
  destruct (selected o (OptimizeRequest.max_distance_km req) (kept req))
    as [|c0 rest] eqn:Esel.
  { exfalso. eapply select_candidates_nonempty; eassumption. }
  assert (Hasc : PySeq.ascending Candidate.distance_km (c0 :: rest)).
  { rewrite <- Esel. apply select_candidates_ascending. right. exact Hord. }
  rewrite (min_ascending Hasc) in Hmin. injection Hmin as <-.
  destruct (@selected_head_first_min o _ _ c0 rest Hord Esel) as (before & after & Ea & Hsplit).
  exists o, c0, rest, before, after. repeat split; try assumption; apply Hsplit.
Qed.


(** X2. A successful call asks the geocoder once, lists the stations
    once, and then computes the distance to every kept station, in
    station order: once when some station is within the radius, twice
    when none is, the fallback measuring them all again. *)
Theorem distances_measured_once_or_twice
    (req : OptimizeRequest.t) (log log' : list call) (r : OptimizeResponse.t) :
  optimize req log = (Ok r, log') ->
  exists o,
    resolved (OptimizeRequest.origin req) = Some o
    /\ let pass := map (fun s => CallGeodesic o (station_coords s)) (kept req) in
       let within := in_reach o (OptimizeRequest.max_distance_km req) (kept req) in
       (within <> [] ->
        log' = log ++ [CallGeocode (OptimizeRequest.origin req); CallListStations] ++ pass)
       /\ (within = [] ->
           log' = log ++ [CallGeocode (OptimizeRequest.origin req); CallListStations]
                      ++ pass ++ pass).
Proof.
  intros Hrun.
  pose proof Hrun as Hok. apply optimize_route_ok in Hok as (o & best & Ho & Hne & _ & _).
  destruct (@optimize_route_succeeds geolocator_geocode db geodesic_km str_lower
              req log o Ho Hne) as (r' & Hr').
  rewrite Hrun in Hr'. injection Hr' as _ ->.
  exists o. split; [exact Ho|]. cbv zeta. unfold selection_calls, distance_calls.
  split; intros Hw.
  - destruct (in_reach o (OptimizeRequest.max_distance_km req) (kept req));
      [congruence | rewrite app_nil_r; reflexivity].
  - rewrite Hw. reflexivity.
Qed.

(** What a run does depends on the request through its origin, its
    radius and the stations its preference keeps. *)
Lemma optimize_route_same_inputs (req1 req2 : OptimizeRequest.t) (log : list call) :
  OptimizeRequest.origin req1 = OptimizeRequest.origin req2 ->
  OptimizeRequest.max_distance_km req1 = OptimizeRequest.max_distance_km req2 ->
  kept req1 = kept req2 ->
  optimize req1 log = optimize req2 log.
Proof.
  intros Eo Em Ek. rewrite !optimize_route_run. unfold optimize_outcome.
  rewrite Eo, Em, Ek. reflexivity.
Qed.

Lemma kept_same_preference (req1 req2 : OptimizeRequest.t) :
  OptimizeRequest.preferred_charger req1 = OptimizeRequest.preferred_charger req2 ->
  kept req1 = kept req2.
Proof. intros E. unfold eligible. rewrite E. reflexivity. Qed.

(** X3. Whatever the radius, the best station of a successful call is a
    nearest one of all the kept stations, and the first such in their
    order: the stations listed before it are strictly farther from the
    origin, those listed after it are not nearer (no distance being a
    NaN). *)
Theorem best_station_is_nearest_of_all
    (req : OptimizeRequest.t) (log log' : list call) (r : OptimizeResponse.t) :
  optimize req log = (Ok r, log') ->
  (forall o, resolved (OptimizeRequest.origin req) = Some o -> no_nan o (kept req)) ->
  exists o before after,
    resolved (OptimizeRequest.origin req) = Some o
    /\ kept req = before ++ OptimizeResponse.best_station r :: after
    /\ OptimizeResponse.distance_km r
       = PyRound.round (far o (OptimizeResponse.best_station r)) 2
    /\ Forall (fun s => PyFloat.lt (far o (OptimizeResponse.best_station r)) (far o s)) before
    /\ Forall (fun s => PyFloat.le (far o (OptimizeResponse.best_station r)) (far o s)) after.
Proof.
  intros Hrun Hord.
  destruct (@run_best_first_min _ _ _ _ Hrun Hord)
    as (o & c0 & rest & B & A0 & Ho & _ & -> & Ea & HB & HA).
  unfold annotate in Ea.
  apply map_eq_app in Ea as (before & tl & Ek & EB & Etl).
  destruct tl as [|s after]; [discriminate|]. cbn [map] in Etl.
  injection Etl as Ec EA. subst B A0 c0.
  exists o, before, after.
  cbn [respond OptimizeResponse.best_station OptimizeResponse.distance_km
       Candidate.station Candidate.distance_km] in *.
  repeat split; try assumption.
  - rewrite Forall_map in HB. exact HB.
  - rewrite Forall_map in HA. exact HA.
Qed.

(** X4. The radius decides the candidates, never the answer: a request
    that differs from a successful one in [max_distance_km] only
    succeeds too, with the same origin, best station, distance, ETA and
    route (no distance being a NaN). *)
Theorem best_station_independent_of_radius
    (req req' : OptimizeRequest.t) (log log1 log' : list call) (r : OptimizeResponse.t) :
  optimize req log = (Ok r, log1) ->
  (forall o, resolved (OptimizeRequest.origin req) = Some o -> no_nan o (kept req)) ->
  OptimizeRequest.origin req' = OptimizeRequest.origin req ->
  OptimizeRequest.preferred_charger req' = OptimizeRequest.preferred_charger req ->
  exists r' log2,
    optimize req' log' = (Ok r', log2)
    /\ OptimizeResponse.origin r' = OptimizeResponse.origin r
    /\ OptimizeResponse.best_station r' = OptimizeResponse.best_station r
    /\ OptimizeResponse.distance_km r' = OptimizeResponse.distance_km r
    /\ OptimizeResponse.eta_minutes r' = OptimizeResponse.eta_minutes r
    /\ OptimizeResponse.route_polyline r' = OptimizeResponse.route_polyline r.
Proof.
  intros Hrun Hord Eo Ep.
  pose proof (kept_same_preference req' req Ep) as Ek.
  destruct (@run_best_first_min _ _ _ _ Hrun Hord)
    as (o & c0 & rest & B & A0 & Ho & _ & -> & Ea & Hsplit).
  assert (Hne : kept req <> []).
  { intros E. rewrite E in Ea. destruct B; discriminate. }
  destruct (@optimize_route_succeeds geolocator_geocode db geodesic_km str_lower
              req' log' o) as (r' & Hrun').
  { rewrite Eo. exact Ho. }
  { rewrite Ek. exact Hne. }
  assert (Hord' : forall o', resolved (OptimizeRequest.origin req') = Some o' ->
                             no_nan o' (kept req')).
  { intros o' Ho'. rewrite Ek. apply Hord. rewrite <- Eo. exact Ho'. }
  destruct (@run_best_first_min _ _ _ _ Hrun' Hord')
    as (o' & c0' & rest' & B' & A0' & Ho' & _ & -> & Ea' & Hsplit').
  rewrite Eo, Ho in Ho'. injection Ho' as <-.
  rewrite Ek, Ea in Ea'.
  destruct (first_min_unique Ea' Hsplit Hsplit') as (_ & <- & _).
  eexists. eexists. split; [exact Hrun'|]. repeat split.
Qed.

(** X5. A successful call reports [min 5 k] candidates, [k] being the
    number of kept stations within the radius, or of all kept stations
    when none is within it; so up to five, every station in the radius
    is reported, and in the fallback every station. *)
Theorem candidates_count
    (req : OptimizeRequest.t) (log log' : list call) (r : OptimizeResponse.t) :
  optimize req log = (Ok r, log') ->
  exists o,
    resolved (OptimizeRequest.origin req) = Some o
    /\ let within := in_reach o (OptimizeRequest.max_distance_km req) (kept req) in
       let pool := match within with [] => measured o (kept req) | _ :: _ => within end in
       List.length (OptimizeResponse.candidates r) = Nat.min 5 (List.length pool)
       /\ ((List.length pool <= 5)%nat ->
           Permutation (OptimizeResponse.candidates r) (map summarise pool)).
Proof.
  intros Hrun.
  apply optimize_route_ok in Hrun as (o & best & Ho & _ & _ & ->).
  exists o. split; [exact Ho|]. cbv zeta.
  cbn [respond OptimizeResponse.candidates]. unfold select_candidates.
  destruct (in_reach o (OptimizeRequest.max_distance_km req) (kept req)) as [|c cs].
  - split.
    + rewrite length_map, length_firstn, sorted_length. reflexivity.
    + intros Hle. apply Permutation_map. rewrite firstn_all2.
      * apply sorted_perm.
      * rewrite sorted_length. exact Hle.
  - split.
    + rewrite length_map, length_firstn, sorted_length. reflexivity.
    + intros Hle. apply Permutation_map. rewrite firstn_all2.
      * apply sorted_perm.
      * rewrite sorted_length. exact Hle.
Qed.

(** X6. The candidates of a successful call are distinct entries of the
    kept station list, the best station among them: some of the stations
    are chosen, the others are not, and each chosen one is reported with
    its own name, coordinates, charger type and power and with its
    distance from the origin rounded to 2 decimals. *)
Theorem candidates_drawn_from_stations
    (req : OptimizeRequest.t) (log log' : list call) (r : OptimizeResponse.t) :
  optimize req log = (Ok r, log') ->
  exists o chosen others,
    resolved (OptimizeRequest.origin req) = Some o
    /\ Permutation (kept req) (chosen ++ others)
    /\ In (OptimizeResponse.best_station r) chosen
    /\ OptimizeResponse.candidates r
       = map (fun s => CandidateSummary.mk (Station.name s) (Station.latitude s)
                         (Station.longitude s) (PyRound.round (far o s) 2)
                         (Station.charger_type s) (Station.power_kw s))
             chosen.
Proof.
  intros Hrun.
  apply optimize_route_ok in Hrun as (o & best & Ho & _ & Hmin & ->).
  set (maxd := OptimizeRequest.max_distance_km req) in *.
  destruct (select_candidates_pool geodesic_km o maxd (kept req)) as (pool & Es & Hpool).
  assert (Hperm : exists rest, Permutation (measured o (kept req))
                                 (selected o maxd (kept req) ++ rest)).
  { set (srt := PySeq.sorted Candidate.distance_km pool) in *.
    assert (Hp : Permutation pool (selected o maxd (kept req) ++ skipn 5 srt)).
    { rewrite Es, firstn_skipn. apply Permutation_sym, sorted_perm. }
    destruct Hpool as [[Ep _]|[Ep _]].
    - exists (skipn 5 srt ++ filter (fun c => negb (in_radius maxd c)) (measured o (kept req))).
      rewrite app_assoc.
      eapply perm_trans; [apply (filter_split_perm (in_radius maxd))|].
      apply Permutation_app_tail. rewrite Ep in Hp. exact Hp.
    - exists (skipn 5 srt). rewrite Ep in Hp. exact Hp. }
  destruct Hperm as (rest & Hperm).
  unfold annotate in Hperm. apply Permutation_sym in Hperm.
  apply Permutation_map_inv in Hperm as (l3 & E3 & P3).
  symmetry in E3. apply map_eq_app in E3 as (chosen & others & -> & Ec & _).
  exists o, chosen, others. split; [exact Ho|]. split; [exact P3|].
  cbn [respond OptimizeResponse.best_station OptimizeResponse.candidates].
  rewrite <- Ec. split.
  - apply min_In in Hmin. rewrite <- Ec in Hmin.
    apply in_map_iff in Hmin as (s & <- & Hs). exact Hs.
  - rewrite map_map. reflexivity.
Qed.

(** The selection over one station is that station, in or out of the
    radius. *)
Lemma select_single (o : Coords.t) (maxd : float) (s : Station.t) :
  selected o maxd [s] = [Candidate.mk s (far o s)].
Proof.
  unfold select_candidates, within_radius, annotate. cbn [map filter].
  destruct (in_radius maxd (Candidate.mk s (far o s))); reflexivity.
Qed.

(** X7. Without a database the optimizer knows the built-in sample
    station only.  A request with no preference, or with one that equals
    "CCS" once lowered, is answered with the sample station as best and
    only candidate, however far it is and whatever the radius; a request
    with any other non-empty preference fails with the 404 "No stations
    available for the given filter". *)
Theorem sample_station_without_database
    (req : OptimizeRequest.t) (log : list call) (o : Coords.t) :
  db = None ->
  resolved (OptimizeRequest.origin req) = Some o ->
  ((truthy (OptimizeRequest.preferred_charger req) = false
    \/ exists p, OptimizeRequest.preferred_charger req = Some p
                 /\ str_lower p = str_lower "CCS") ->
   exists r log',
     optimize req log = (Ok r, log')
     /\ OptimizeResponse.best_station r = sample_station
     /\ OptimizeResponse.candidates r
        = [summarise (Candidate.mk sample_station (far o sample_station))])
  /\ ((exists p, OptimizeRequest.preferred_charger req = Some p /\ p <> ""
                 /\ str_lower p <> str_lower "CCS") ->
      optimize req log
      = (Raise (HTTPException 404 "No stations available for the given filter"),
         log ++ [CallGeocode (OptimizeRequest.origin req); CallListStations])).
Proof.
  intros Hdb Ho. split.
  - intros Hpref.
    assert (Ek : kept req = [sample_station]).
    { unfold eligible, snapshot. rewrite Hdb.
      destruct Hpref as [Hf|(p & Hp & Hl)].
      - rewrite Hf. reflexivity.
      - rewrite Hp. destruct (truthy (Some p)); [|reflexivity].
        cbn [filter]. unfold matches_charger.
        change (Station.charger_type sample_station) with "CCS".
        rewrite Hl, String.eqb_refl. reflexivity. }
    rewrite optimize_route_run. unfold optimize_outcome. rewrite Ho, Ek. cbv zeta.
    rewrite select_single. cbn [PySeq.min fold_left fst snd].
    eexists. eexists. split; [reflexivity|]. split; reflexivity.
  - intros (p & Hp & Hne & Hl).
    assert (Ek : kept req = []).
    { unfold eligible, snapshot. rewrite Hdb, Hp. cbn [truthy].
      destruct (String.eqb_spec p ""); [contradiction|]. cbn [negb filter].
      unfold matches_charger. change (Station.charger_type sample_station) with "CCS".
      destruct (String.eqb_spec (str_lower "CCS") (str_lower p)); [congruence | reflexivity]. }
    rewrite optimize_route_run. unfold optimize_outcome. rewrite Ho, Ek. reflexivity.
Qed.

(** X8. The charger preference is compared after lowering: two requests
    that differ only in the case of a non-empty preference have the
    same outcome and make the same calls. *)
Theorem preference_case_insensitive
    (req1 req2 : OptimizeRequest.t) (p1 p2 : string) (log : list call) :
  OptimizeRequest.origin req1 = OptimizeRequest.origin req2 ->
  OptimizeRequest.max_distance_km req1 = OptimizeRequest.max_distance_km req2 ->
  OptimizeRequest.preferred_charger req1 = Some p1 ->
  OptimizeRequest.preferred_charger req2 = Some p2 ->
  p1 <> "" -> p2 <> "" ->
  str_lower p1 = str_lower p2 ->
  optimize req1 log = optimize req2 log.
Proof.
  intros Eo Em H1 H2 N1 N2 El. apply optimize_route_same_inputs; try assumption.
  unfold eligible. rewrite H1, H2. cbn [truthy].
  destruct (String.eqb_spec p1 ""); [contradiction|].
  destruct (String.eqb_spec p2 ""); [contradiction|]. cbn [negb].
  apply filter_ext. intros s. unfold matches_charger. rewrite El. reflexivity.
Qed.

(** X9. An empty preference is no preference: a request with
    [preferred_charger = ""] has the outcome and the calls of the same
    request with [preferred_charger = None]. *)
Theorem empty_preference_same_as_none
    (req1 req2 : OptimizeRequest.t) (log : list call) :
  OptimizeRequest.origin req1 = OptimizeRequest.origin req2 ->
  OptimizeRequest.max_distance_km req1 = OptimizeRequest.max_distance_km req2 ->
  OptimizeRequest.preferred_charger req1 = Some "" ->
  OptimizeRequest.preferred_charger req2 = None ->
  optimize req1 log = optimize req2 log.
Proof.
  intros Eo Em H1 H2. apply optimize_route_same_inputs; try assumption.
  unfold eligible. rewrite H1, H2. reflexivity.
Qed.

(** X10. As long as some station is within the smaller radius, widening
    the radius keeps the reported candidates and their order and can
    only add farther ones after them. *)
Theorem wider_radius_appends_candidates
    (req req' : OptimizeRequest.t) (log log1 log' : list call) (r : OptimizeResponse.t)
    (o : Coords.t) :
  optimize req log = (Ok r, log1) ->
  resolved (OptimizeRequest.origin req) = Some o ->
  (exists s, In s (kept req) /\ PyFloat.le (far o s) (OptimizeRequest.max_distance_km req)) ->
  OptimizeRequest.origin req' = OptimizeRequest.origin req ->
  OptimizeRequest.preferred_charger req' = OptimizeRequest.preferred_charger req ->
  PyFloat.le (OptimizeRequest.max_distance_km req) (OptimizeRequest.max_distance_km req') ->
  exists r' log2 more,
    optimize req' log' = (Ok r', log2)
    /\ OptimizeResponse.candidates r' = OptimizeResponse.candidates r ++ more.
Proof.
  intros Hrun Ho Hsome Eo Ep Hle.
  pose proof (kept_same_preference req' req Ep) as Ek.
  apply optimize_route_ok in Hrun as (o1 & best & Ho1 & Hne & _ & ->).
  rewrite Ho in Ho1. injection Ho1 as <-.
  destruct (@optimize_route_succeeds geolocator_geocode db geodesic_km str_lower
              req' log' o) as (r' & Hrun').
  { rewrite Eo. exact Ho. }
  { rewrite Ek. exact Hne. }
  pose proof Hrun' as Hok.
  apply optimize_route_ok in Hok as (o2 & best' & Ho2 & _ & _ & Er').
  rewrite Eo, Ho in Ho2. injection Ho2 as <-. rewrite Ek in Er'.
  set (m1 := OptimizeRequest.max_distance_km req) in *.
  set (m2 := OptimizeRequest.max_distance_km req') in *.
  set (w1 := in_reach o m1 (kept req)). set (w2 := in_reach o m2 (kept req)).
  assert (Hw1 : w1 <> []) by (apply within_radius_nonempty_iff; exact Hsome).
  assert (Hsub : forall c, in_radius m1 c = true -> in_radius m2 c = true).
  { intros c Hc. eapply PyFloat.le_trans; eassumption. }
  assert (E12 : filter (in_radius m1) w2 = w1).
  { unfold w1, w2, within_radius. induction (measured o (kept req)) as [|c l IH]; [reflexivity|].
    cbn [filter]. destruct (in_radius m2 c) eqn:E2.
    - cbn [filter]. destruct (in_radius m1 c); [f_equal|]; exact IH.
    - destruct (in_radius m1 c) eqn:E1; [|exact IH].
      rewrite (Hsub c E1) in E2. discriminate. }
  assert (Hw2 : w2 <> []).
  { intros E. rewrite E in E12. cbn in E12. congruence. }
  assert (Esorted : PySeq.sorted Candidate.distance_km w2
                    = PySeq.sorted Candidate.distance_km w1
                      ++ filter (fun c => negb (in_radius m1 c))
                           (PySeq.sorted Candidate.distance_km w2)).
  { rewrite <- E12.
    rewrite <- (@sorted_filter _ Candidate.distance_km (in_radius m1))
      by apply within_radius_keys_ordered.
    apply (@ascending_filter_first _ Candidate.distance_km).
    - apply sorted_ascending, within_radius_keys_ordered.
    - intros a b Hab Hb. eapply PyFloat.le_trans; eassumption. }
  assert (Esel : forall m, in_reach o m (kept req) <> [] ->
            selected o m (kept req)
            = firstn 5 (PySeq.sorted Candidate.distance_km (in_reach o m (kept req)))).
  { intros m Hm. unfold select_candidates.
    destruct (in_reach o m (kept req)); [congruence | reflexivity]. }
  eexists. eexists. eexists. split; [exact Hrun'|].
  rewrite Er'. cbn [respond OptimizeResponse.candidates].
  rewrite (Esel m1 Hw1), (Esel m2 Hw2). fold w1 w2.
  rewrite Esorted, firstn_app, map_app. reflexivity.
Qed.

(** X11. Whatever the radius, the reported candidates are a beginning of
    the five nearest of all the kept stations, in the same order: the
    radius can only cut that list short (no distance being a NaN). *)
Theorem candidates_begin_the_five_nearest
    (req : OptimizeRequest.t) (log log' : list call) (r : OptimizeResponse.t) :
  optimize req log = (Ok r, log') ->
  (forall o, resolved (OptimizeRequest.origin req) = Some o -> no_nan o (kept req)) ->
  exists o more,
    resolved (OptimizeRequest.origin req) = Some o
    /\ map summarise (firstn 5 (PySeq.sorted Candidate.distance_km (measured o (kept req))))
       = OptimizeResponse.candidates r ++ more.
Proof.
  intros Hrun Hord.
  apply optimize_route_ok in Hrun as (o & best & Ho & _ & _ & ->).
  specialize (Hord o Ho). pose proof (annotate_keys_ordered Hord) as Oall.
  set (maxd := OptimizeRequest.max_distance_km req).
  cbn [respond OptimizeResponse.candidates]. unfold select_candidates.
  destruct (in_reach o maxd (kept req)) as [|c cs] eqn:Ew.
  - exists o, []. split; [exact Ho|]. rewrite app_nil_r. reflexivity.
  - rewrite <- Ew. unfold within_radius.
    rewrite <- (@sorted_filter _ Candidate.distance_km (in_radius maxd)) by exact Oall.
    set (srt := PySeq.sorted Candidate.distance_km (measured o (kept req))).
    assert (E : srt = filter (in_radius maxd) srt
                      ++ filter (fun x => negb (in_radius maxd x)) srt).
    { apply (@ascending_filter_first _ Candidate.distance_km).
      - apply sorted_ascending, Oall.
      - intros a b Hab Hb. eapply PyFloat.le_trans; eassumption. }
    exists o, (map summarise
                 (firstn (5 - List.length (filter (in_radius maxd) srt))
                    (filter (fun x => negb (in_radius maxd x)) srt))).
    split; [exact Ho|].
    rewrite <- map_app, <- firstn_app, <- E. reflexivity.
Qed.

(** ** The geocoding and listing endpoints *)




(** X13. [list_stations] applies a filter only with a database and only
    when the filter is a non-empty string: without a database it answers
    with the sample station whatever city or charger is asked for, and
    an empty-string filter lists what no filter lists. *)
Theorem list_stations_filters_ignored
    (city charger : option string) (log : list call) :
  (db = None ->
   list_stations db city charger log = (Ok [sample_station], log ++ [CallListStations]))
  /\ (truthy city = false -> truthy charger = false ->
      list_stations db city charger log
      = (Ok (snapshot db), log ++ [CallListStations]))
  /\ list_stations db (Some "") (Some "") log = list_stations db None None log.
Proof.
  unfold list_stations, snapshot, bind, emit, ret. repeat split.
  - intros ->. reflexivity.
  - intros -> ->. destruct db; reflexivity.
Qed.

End OptimizerFacts.

(* ================================================================== *)
(** * The chat endpoint *)
(* ================================================================== *)

Module ChatMessage.
Record t := mk { message : string }.
End ChatMessage.

(** The dictionary [{"reply": ...}] the handler returns. *)
Module ChatReply.
Record t := mk { reply : string }.
End ChatReply.

(** Python's [k in text] on strings: [k] occurs in [text] as a substring. *)
Fixpoint contains (k text : string) : bool :=
  if String.prefix k text then true
  else match text with
       | EmptyString => false
       | String _ text' => contains k text'
       end.

(** [any(k in text for k in keywords)]. *)
Definition any_in (keywords : list string) (text : string) : bool :=
  existsb (fun k => contains k text) keywords.

Definition pricing_keywords : list string := ["price"; "cost"; "kwh"; "pricing"].
Definition nearby_keywords : list string := ["near"; "nearest"; "close"; "around me"].
Definition availability_keywords : list string := ["available"; "availability"; "busy"; "free"].
Definition route_keywords : list string := ["route"; "navigate"; "direction"].

Definition pricing_reply : string :=
  "Pricing varies by operator and power. Typical public fast charging ranges from $0.20 to $0.80 per kWh. Use the station details to compare.".
Definition nearby_reply : string :=
  "Enter your location in the search box to see the nearest stations and optimized route.".
Definition availability_reply : string :=
  "Live availability depends on operator integrations. This demo shows indicative availability; check operator apps for real-time slots.".
Definition route_reply : string :=
  "Provide your origin address and optional charger preference. The optimizer will pick the best nearby station and draw the route.".
Definition default_reply : string :=
  "I can help you find nearby charging stations, pricing info, and route guidance. Ask me about 'nearest station', 'pricing', or 'availability'.".

Section Chat.

Variable str_lower : string -> string.

Definition chatbot (msg : ChatMessage.t) : ChatReply.t :=
  let text := str_lower (ChatMessage.message msg) in
  if any_in pricing_keywords text then ChatReply.mk pricing_reply
  else if any_in nearby_keywords text then ChatReply.mk nearby_reply
  else if any_in availability_keywords text then ChatReply.mk availability_reply
  else if any_in route_keywords text then ChatReply.mk route_reply
  else ChatReply.mk default_reply.

End Chat.

(** ** Substrings *)

Lemma append_assoc_str (a b c : string) : ((a ++ b) ++ c = a ++ (b ++ c))%string.
Proof. induction a as [|x a IH]; cbn; [reflexivity | rewrite IH; reflexivity]. Qed.

Lemma prefix_iff (k text : string) :
  String.prefix k text = true <-> exists b, text = (k ++ b)%string.
Proof.
  revert text. induction k as [|x k IH]; intros text.
  - destruct text; cbn; split; eauto.
  - destruct text as [|y text]; cbn.
    + split; [discriminate | intros (b & E); discriminate].
    + destruct (Ascii.ascii_dec x y) as [->|NE].
      * rewrite IH. split; intros (b & E); exists b; congruence.
      * split; [discriminate | intros (b & E); congruence].
Qed.

(** [contains k text] holds exactly when [text] is some [a ++ k ++ b]. *)
Lemma contains_iff (k text : string) :
  contains k text = true <-> exists a b, text = (a ++ (k ++ b))%string.
Proof.
  induction text as [|y text IH]; cbn [contains].
  - destruct (String.prefix k "") eqn:E.
    + split; [intros _|reflexivity]. apply prefix_iff in E as (b & E).
      exists "", b. exact E.
    + split; [discriminate|]. intros (a & b & Eq).
      destruct a; [|discriminate]. cbn in Eq.
      assert (String.prefix k "" = true) by (apply prefix_iff; eauto). congruence.
  - destruct (String.prefix k (String y text)) eqn:E.
    + split; [intros _|reflexivity]. apply prefix_iff in E as (b & E).
      exists "", b. exact E.
    + rewrite IH. split.
      * intros (a & b & ->). exists (String y a), b. reflexivity.
      * intros (a & b & Eq). destruct a as [|z a].
        -- cbn in Eq. assert (String.prefix k (String y text) = true)
             by (apply prefix_iff; eauto). congruence.
        -- cbn in Eq. injection Eq as _ ->. eauto.
Qed.

(** A text that contains a word contains every beginning of the word. *)
Lemma contains_beginning (k rest text : string) :
  contains (k ++ rest) text = true -> contains k text = true.
Proof.
  rewrite !contains_iff. intros (a & b & ->).
  exists a, (rest ++ b)%string. rewrite append_assoc_str. reflexivity.
Qed.

(** A text mentions a list of keywords when one of them occurs in it. *)
Definition mentions (keywords : list string) (text : string) : Prop :=
  exists k a b, In k keywords /\ text = (a ++ (k ++ b))%string.

Lemma any_in_iff (keywords : list string) (text : string) :
  any_in keywords text = true <-> mentions keywords text.
Proof.
  unfold any_in, mentions. rewrite existsb_exists. split.
  - intros (k & Hk & Hc). apply contains_iff in Hc as (a & b & E). eauto.
  - intros (k & a & b & Hk & E). exists k. split; [exact Hk|].
    apply contains_iff. eauto.
Qed.

(** X14. The chat endpoint answers by the first intent, in the order
    pricing, nearby, availability, route, of which the lowered message
    contains a keyword as a substring, and with the default reply
    exactly when it contains none of the keywords. *)
Theorem chatbot_intent_precedence (str_lower : string -> string) (msg : ChatMessage.t) :
  let text := str_lower (ChatMessage.message msg) in
  let answer := ChatReply.reply (chatbot str_lower msg) in
  let P := mentions pricing_keywords text in
  let N := mentions nearby_keywords text in
  let A := mentions availability_keywords text in
  let R := mentions route_keywords text in
  (answer = pricing_reply <-> P)
  /\ (answer = nearby_reply <-> ~ P /\ N)
  /\ (answer = availability_reply <-> ~ P /\ ~ N /\ A)
  /\ (answer = route_reply <-> ~ P /\ ~ N /\ ~ A /\ R)
  /\ (answer = default_reply <-> ~ P /\ ~ N /\ ~ A /\ ~ R).
Proof.
  cbv zeta. unfold chatbot. rewrite <- !any_in_iff.
  destruct (any_in pricing_keywords _), (any_in nearby_keywords _),
    (any_in availability_keywords _), (any_in route_keywords _);
    cbn [ChatReply.reply];
    repeat split; intros; try discriminate; try reflexivity;
    repeat match goal with H : _ /\ _ |- _ => destruct H end;
    try congruence; try (intros E; discriminate).
Qed.

(** X15. The keyword "nearest" never decides an answer: a text that
    contains it contains "near", so that the nearby intent is found with
    or without it. *)
Theorem nearest_keyword_is_redundant (text : string) :
  (contains "nearest" text = true -> contains "near" text = true)
  /\ any_in nearby_keywords text = any_in ["near"; "close"; "around me"] text.
Proof.
  assert (H : contains "nearest" text = true -> contains "near" text = true)
    by apply (contains_beginning "near" "est").
  split; [exact H|]. unfold any_in, nearby_keywords. cbn [existsb].
  destruct (contains "near" text) eqn:En; [reflexivity|].
  destruct (contains "nearest" text); [|reflexivity].
  specialize (H eq_refl). discriminate.
Qed.

(* ================================================================== *)
(** * Seeding the station collection at startup *)
(* ================================================================== *)

(** What a call to the database gives: a value, or an exception. *)
Inductive db_reply (A : Type) : Type :=
| Replied (a : A)
| DbError.
Arguments Replied {A} a.
Arguments DbError {A}.

Definition seed (name : string) (la lo : float) (charger : string) (kw price : float)
    (availability city : string) : Station.t :=
  Station.mk None name la lo charger kw (Some price) (Some availability) (Some city).

Definition seeds : list Station.t :=
  [ seed "IONITY Berlin" 52.5208%float 13.4095%float "CCS" 150%float 0.79%float
         "available" "Berlin";
    seed "Tesla Supercharger Munich" 48.1371%float 11.5754%float "CCS" 250%float 0.68%float
         "busy" "Munich";
    seed "Tata Power Mumbai" 19.0760%float 72.8777%float "Type2" 30%float 0.22%float
         "available" "Mumbai";
    seed "Delhi EV Hub" 28.6139%float 77.2090%float "CHAdeMO" 50%float 0.19%float
         "available" "Delhi";
    seed "London FastCharge" 51.5074%float (-0.1278)%float "CCS" 120%float 0.45%float
         "available" "London" ].

Section Seeding.

(** The database: its state, [db["station"].count_documents({})] and
    [create_document("station", s)], each of which may raise; a call
    that raises may still have changed the state. *)
Variable Store : Type.
Variable count_documents : Store -> db_reply Z.
Variable create_document : Store -> Station.t -> db_reply unit * Store.

(** The loop [for s in seeds: create_document("station", s)]: the reply,
    the state reached and the documents [create_document] was called
    with. *)
Fixpoint create_all (docs : list Station.t) (st : Store)
    : db_reply unit * Store * list Station.t :=
  match docs with
  | [] => (Replied tt, st, [])
  | d :: rest =>
      match create_document st d with
      | (Replied _, st') =>
          let '(r, st'', calls) := create_all rest st' in (r, st'', d :: calls)
      | (DbError, st') => (DbError, st', [d])
      end
  end.

Definition ensure_seed_stations (db : option Store)
    : db_reply unit * option Store * list Station.t :=
  match db with
  | None => (Replied tt, None, [])
  | Some st =>
      match count_documents st with
      | DbError => (DbError, Some st, [])
      | Replied existing =>
          if (0 <? existing)%Z then (Replied tt, Some st, [])
          else let '(r, st', calls) := create_all seeds st in (r, Some st', calls)
      end
  end.

(** [startup_event]: whatever [ensure_seed_stations] raises is dropped. *)
Definition startup_event (db : option Store) : option Store * list Station.t :=
  let '(_, db', calls) := ensure_seed_stations db in (db', calls).

Lemma create_all_prefix (docs : list Station.t) (st : Store) :
  exists later,
    docs = snd (create_all docs st) ++ later
    /\ (fst (fst (create_all docs st)) = Replied tt -> later = []).
Proof.
  revert st. induction docs as [|d rest IH]; intros st; cbn [create_all].
  - exists []. split; reflexivity.
  - destruct (create_document st d) as [[[]|] st'].
    + destruct (IH st') as (later & E & Hall).
      destruct (create_all rest st') as [[r st''] calls]. cbn [fst snd] in *.
      exists later. split; [rewrite E at 1; reflexivity | exact Hall].
    + exists rest. split; [reflexivity | discriminate].
Qed.

(** X16. Seeding touches an empty collection only: without a database,
    with a collection that counts at least one document, or when the
    count itself fails, [startup_event] creates no document and leaves
    the database as it is. *)
Theorem seeding_only_into_empty_collection (db : option Store) :
  db = None
  \/ (exists st, db = Some st /\ count_documents st = DbError)
  \/ (exists st n, db = Some st /\ count_documents st = Replied n /\ (0 < n)%Z) ->
  startup_event db = (db, []).
Proof.
  unfold startup_event, ensure_seed_stations.
  intros [-> | [(st & -> & ->) | (st & n & -> & -> & Hn)]]; try reflexivity.
  apply Z.ltb_lt in Hn. rewrite Hn. reflexivity.
Qed.

(** X17. Into an empty collection the seeds are created in their order,
    one after the other, up to the first call that raises: the documents
    [create_document] is called with are a beginning of the five seeds,
    all five when no call raised, and [startup_event] returns normally
    with the database the calls left. *)
Theorem seeding_creates_seeds_in_order (st : Store) :
  count_documents st = Replied 0%Z ->
  let '(reply, db', calls) := ensure_seed_stations (Some st) in
  startup_event (Some st) = (db', calls)
  /\ db' = Some (snd (fst (create_all seeds st)))
  /\ exists later,
       seeds = calls ++ later
       /\ (reply = Replied tt -> calls = seeds).
Proof.
  intros Hc. unfold startup_event, ensure_seed_stations. rewrite Hc. cbn [Z.ltb Z.compare].
  destruct (create_all_prefix seeds st) as (later & E & Hall).
  destruct (create_all seeds st) as [[reply st'] calls] eqn:Ec. cbn [fst snd] in *.
  split; [reflexivity|]. split; [reflexivity|].
  exists later. split; [exact E|].
  intros Hr. rewrite (Hall Hr), app_nil_r in E. symmetry. exact E.
Qed.

(** X18. Seeding happens once: after a startup that created the five
    seeds, in a database that then counts at least one document, a
    second startup creates nothing and changes nothing. *)
Theorem startup_event_seeds_once (st st' : Store) (n : Z) :
  count_documents st = Replied 0%Z ->
  create_all seeds st = (Replied tt, st', seeds) ->
  count_documents st' = Replied n -> (0 < n)%Z ->
  startup_event (Some st) = (Some st', seeds)
  /\ startup_event (fst (startup_event (Some st))) = (Some st', []).
Proof.
  intros Hc Hall Hc' Hn.
  assert (E : startup_event (Some st) = (Some st', seeds)).
  { unfold startup_event, ensure_seed_stations. rewrite Hc. cbn [Z.ltb Z.compare].
    rewrite Hall. reflexivity. }
  split; [exact E|]. rewrite E. cbn [fst].
  unfold startup_event, ensure_seed_stations. rewrite Hc'.
  apply Z.ltb_lt in Hn. rewrite Hn. reflexivity.
Qed.

End Seeding.

(* ================================================================== *)
(** * The concrete world again *)
(* ================================================================== *)

Module Scenario2.

Definition wide : OptimizeRequest.t := OptimizeRequest.mk "Potsdam" 1000%float None.
Definition wants_CCS : OptimizeRequest.t :=
  OptimizeRequest.mk "Potsdam" 1000%float (Some "CCS").

(** A database kept as the list of its station documents. *)
Definition count (st : list Station.t) : db_reply Z :=
  Replied (Z.of_nat (List.length st)).
Definition create (st : list Station.t) (d : Station.t) : db_reply unit * list Station.t :=
  (Replied tt, st ++ [d]).

End Scenario2.

Example chatbot_freeway :
  ChatReply.reply (chatbot Scenario.lower (ChatMessage.mk "Is the FREEWAY route open?"))
  = availability_reply.
Proof. reflexivity. Qed.

Lemma distances_measured_once_or_twice_witness :
  exists r log',
    Scenario.run Scenario.database Scenario.near_potsdam = (Ok r, log')
    /\ log' = [CallGeocode "Potsdam"; CallListStations]
              ++ map (fun s => CallGeodesic Scenario.potsdam (station_coords s))
                     Scenario.stations.
Proof.
  destruct scenario_near_potsdam_runs as (r & log' & Hrun).
  exists r, log'. split; [exact Hrun|].
  destruct (@distances_measured_once_or_twice Scenario.geocoder Scenario.database
              Scenario.geodesic Scenario.lower Scenario.near_potsdam [] log' r Hrun)
    as (o & Ho & Hin & _).
  cbv in Ho. injection Ho as <-.
  apply Hin. discriminate.
Defined.

Lemma best_station_is_nearest_of_all_witness :
  exists r log' before after,
    Scenario.run Scenario.database Scenario.too_tight = (Ok r, log')
    /\ Scenario.stations = before ++ OptimizeResponse.best_station r :: after.
Proof.
  destruct scenario_too_tight_runs as (r & log' & Hrun).
  destruct (@best_station_is_nearest_of_all Scenario.geocoder Scenario.database
              Scenario.geodesic Scenario.lower Scenario.too_tight [] log' r Hrun)
    as (o & before & after & _ & Ek & _).
  - intros o _. apply scenario_distances_ordered.
  - exists r, log', before, after. split; [exact Hrun | exact Ek].
Defined.

Lemma best_station_independent_of_radius_witness :
  exists r log1 r' log2,
    Scenario.run Scenario.database Scenario.too_tight = (Ok r, log1)
    /\ Scenario.run Scenario.database Scenario.near_potsdam = (Ok r', log2)
    /\ OptimizeResponse.best_station r' = OptimizeResponse.best_station r
    /\ OptimizeResponse.eta_minutes r' = OptimizeResponse.eta_minutes r.
Proof.
  destruct scenario_too_tight_runs as (r & log1 & Hrun).
  destruct (@best_station_independent_of_radius Scenario.geocoder Scenario.database
              Scenario.geodesic Scenario.lower Scenario.too_tight Scenario.near_potsdam
              [] log1 [] r Hrun)
    as (r' & log2 & Hrun' & _ & Hbest & _ & Heta & _); try reflexivity.
  - intros o _. apply scenario_distances_ordered.
  - exists r, log1, r', log2. repeat split; assumption.
Defined.

Lemma candidates_count_witness :
  exists r log',
    Scenario.run Scenario.database Scenario.too_tight = (Ok r, log')
    /\ List.length (OptimizeResponse.candidates r) = 5%nat.
Proof.
  destruct scenario_too_tight_runs as (r & log' & Hrun).
  exists r, log'. split; [exact Hrun|].
  destruct (@candidates_count Scenario.geocoder Scenario.database
              Scenario.geodesic Scenario.lower Scenario.too_tight [] log' r Hrun)
    as (o & Ho & Hlen & _).
  cbv in Ho. injection Ho as <-. exact Hlen.
Defined.

Lemma candidates_drawn_from_stations_witness :
  exists r log' chosen others,
    Scenario.run Scenario.database Scenario.near_potsdam = (Ok r, log')
    /\ Permutation Scenario.stations (chosen ++ others)
    /\ In (OptimizeResponse.best_station r) chosen.
Proof.
  destruct scenario_near_potsdam_runs as (r & log' & Hrun).
  destruct (@candidates_drawn_from_stations Scenario.geocoder Scenario.database
              Scenario.geodesic Scenario.lower Scenario.near_potsdam [] log' r Hrun)
    as (o & chosen & others & _ & Hperm & Hbest & _).
  exists r, log', chosen, others. repeat split; assumption.
Defined.

Lemma sample_station_without_database_witness :
  exists r log',
    optimize_route Scenario.geocoder None Scenario.geodesic Scenario.lower
      Scenario.near_potsdam [] = (Ok r, log')
    /\ OptimizeResponse.best_station r = sample_station.
Proof.
  destruct (proj1 (@sample_station_without_database Scenario.geocoder None
                     Scenario.geodesic Scenario.lower Scenario.near_potsdam []
                     Scenario.potsdam eq_refl eq_refl))
    as (r & log' & Hrun & Hbest & _).
  - left. reflexivity.
  - exists r, log'. split; assumption.
Defined.

Lemma preference_case_insensitive_witness :
  Scenario.lower "ccs" = Scenario.lower "CCS"
  /\ Scenario.run Scenario.database Scenario.wants_ccs
     = Scenario.run Scenario.database Scenario2.wants_CCS.
Proof.
  split; [reflexivity|].
  apply (@preference_case_insensitive Scenario.geocoder Scenario.database
           Scenario.geodesic Scenario.lower Scenario.wants_ccs Scenario2.wants_CCS
           "ccs" "CCS" []); try reflexivity; discriminate.
Defined.

Lemma empty_preference_same_as_none_witness :
  Scenario.run Scenario.database Scenario.wants_nothing
  = Scenario.run Scenario.database Scenario.near_potsdam.
Proof.
  apply (@empty_preference_same_as_none Scenario.geocoder Scenario.database
           Scenario.geodesic Scenario.lower Scenario.wants_nothing Scenario.near_potsdam
           []); reflexivity.
Defined.

Lemma wider_radius_appends_candidates_witness :
  exists r log1 r' log2 more,
    Scenario.run Scenario.database Scenario.near_potsdam = (Ok r, log1)
    /\ Scenario.run Scenario.database Scenario2.wide = (Ok r', log2)
    /\ OptimizeResponse.candidates r' = OptimizeResponse.candidates r ++ more.
Proof.
  destruct scenario_near_potsdam_runs as (r & log1 & Hrun).
  destruct (@wider_radius_appends_candidates Scenario.geocoder Scenario.database
              Scenario.geodesic Scenario.lower Scenario.near_potsdam Scenario2.wide
              [] log1 [] r Scenario.potsdam Hrun eq_refl)
    as (r' & log2 & more & Hrun' & Hc); try reflexivity.
  - exists Scenario.ionity_berlin. split; [right; left; reflexivity | reflexivity].
  - exists r, log1, r', log2, more. repeat split; assumption.
Defined.

Lemma candidates_begin_the_five_nearest_witness :
  exists r log' more,
    Scenario.run Scenario.database Scenario.near_potsdam = (Ok r, log')
    /\ map summarise
         (firstn 5 (PySeq.sorted Candidate.distance_km
                      (annotate Scenario.geodesic Scenario.potsdam Scenario.stations)))
       = OptimizeResponse.candidates r ++ more.
Proof.
  destruct scenario_near_potsdam_runs as (r & log' & Hrun).
  destruct (@candidates_begin_the_five_nearest Scenario.geocoder Scenario.database
              Scenario.geodesic Scenario.lower Scenario.near_potsdam [] log' r Hrun)
    as (o & more & Ho & Hc).
  - intros o _. apply scenario_distances_ordered.
  - cbv in Ho. injection Ho as <-.
    exists r, log', more. split; [exact Hrun | exact Hc].
Defined.

Lemma seeding_only_into_empty_collection_witness :
  Scenario2.count seeds = Replied 5%Z
  /\ startup_event Scenario2.count Scenario2.create (Some seeds) = (Some seeds, []).
Proof.
  split; [reflexivity|].
  apply (@seeding_only_into_empty_collection _ Scenario2.count Scenario2.create).
  right. right. exists seeds, 5%Z. repeat split.
Defined.

Lemma seeding_creates_seeds_in_order_witness :
  Scenario2.count [] = Replied 0%Z
  /\ startup_event Scenario2.count Scenario2.create (Some []) = (Some seeds, seeds).
Proof.
  split; [reflexivity|].
  pose proof (@seeding_creates_seeds_in_order _ Scenario2.count Scenario2.create []
                eq_refl) as H.
  cbn in H. exact (proj1 H).
Defined.

Lemma startup_event_seeds_once_witness :
  startup_event Scenario2.count Scenario2.create
    (fst (startup_event Scenario2.count Scenario2.create (Some [])))
  = (Some seeds, []).
Proof.
  apply (@startup_event_seeds_once _ Scenario2.count Scenario2.create [] seeds 5%Z);
    reflexivity.
Defined.
